(** * claude-code-chat-export: conversation reconstruction and rendering

    A shallow embedding of [export.py]: the two passes of [parse_messages]
    (result correlation and turn reconstruction), the Markdown-subset
    transducer [md_to_html], the tool formatters and the per-tool part of
    the HTML renderer, with the properties of the specification proved
    (or refuted) on them.

    Conventions of the embedding.
    - A Python [str] is a Rocq [string]; each character stands for the code
      point of the same number, so the model covers text in U+0000..U+00FF.
    - A value produced by [json.loads] is a [json]; numbers are integers
      (a log holding a fractional number is outside the model).
    - A Python exception is a [Raise] in the monad [py]. *)

From Stdlib Require Import ZArith List String Ascii Bool Lia DecimalString.
Import ListNotations.
Open Scope string_scope.
Set Warnings "-register-all".

(** ** Python values and exceptions *)

Inductive json : Type :=
| JNull
| JBool (b : bool)
| JInt (z : Z)
| JStr (s : string)
| JArr (l : list json)
| JObj (kvs : list (string * json)).

Inductive exn : Type := KeyError | TypeError | AttributeError.

Inductive py (A : Type) : Type :=
| Return (a : A)
| Raise (e : exn).
Arguments Return {A} a.
Arguments Raise {A} e.

Definition bind {A B : Type} (c : py A) (k : A -> py B) : py B :=
  match c with
  | Return a => k a
  | Raise e => Raise e
  end.

Notation "x <- c ;; k" := (bind c (fun x => k))
  (at level 61, c at next level, right associativity).
Notation "' p <- c ;; k" := (bind c (fun p => k))
  (at level 61, p pattern, c at next level, right associativity).

(** ** Characters and strings *)

Definition LF : ascii := "010"%char.
Definition nl : string := String LF "".
Definition dq : string := String "034"%char "".

(** [str.isspace] on U+0000..U+00FF: TAB..CR, FS..US, SPACE, NEL, NBSP. *)
Definition is_space (c : ascii) : bool :=
  let n := nat_of_ascii c in
  ((9 <=? n)%nat && (n <=? 13)%nat) || ((28 <=? n)%nat && (n <=? 32)%nat)
  || (n =? 133)%nat || (n =? 160)%nat.

Fixpoint lstrip (s : string) : string :=
  match s with
  | "" => ""
  | String c r => if is_space c then lstrip r else s
  end.

Fixpoint rstrip (s : string) : string :=
  match s with
  | "" => ""
  | String c r =>
      match rstrip r with
      | "" => if is_space c then "" else String c ""
      | r' => String c r'
      end
  end.

(** [s.strip()] *)
Definition strip (s : string) : string := lstrip (rstrip s).

Definition nonempty (s : string) : bool :=
  match s with "" => false | _ => true end.

(** [s[len(p):]] when [s.startswith(p)] *)
Fixpoint drop_prefix (p s : string) : option string :=
  match p, s with
  | "", _ => Some s
  | String a p', String b s' =>
      if Ascii.eqb a b then drop_prefix p' s' else None
  | String _ _, "" => None
  end.

Definition startswith (s p : string) : bool :=
  match drop_prefix p s with Some _ => true | None => false end.

(** First occurrence of [p] in [s]: the text before it and the text after. *)
Fixpoint find_sub (p s : string) : option (string * string) :=
  match drop_prefix p s with
  | Some r => Some ("", r)
  | None =>
      match s with
      | "" => None
      | String c s' =>
          match find_sub p s' with
          | Some (a, b) => Some (String c a, b)
          | None => None
          end
      end
  end.

(** [p in s] *)
Definition contains (p s : string) : bool :=
  match find_sub p s with Some _ => true | None => false end.

(** [sep.join(l)] *)
Fixpoint join (sep : string) (l : list string) : string :=
  match l with
  | [] => ""
  | [x] => x
  | x :: r => x ++ sep ++ join sep r
  end.

(** ** Dictionaries, truthiness, [str()] *)

(** A parsed object is the list of its items in order; [json.loads] leaves
    each key once, so the first binding of a key is its only one. *)
Fixpoint assoc (k : string) (kvs : list (string * json)) : option json :=
  match kvs with
  | [] => None
  | (k', v) :: r => if String.eqb k k' then Some v else assoc k r
  end.

(** [d[k]] *)
Definition subscript (d : json) (k : string) : py json :=
  match d with
  | JObj kvs =>
      match assoc k kvs with
      | Some v => Return v
      | None => Raise KeyError
      end
  | _ => Raise TypeError
  end.

(** [d.get(k, default)] *)
Definition dget (d : json) (k : string) (default : json) : py json :=
  match d with
  | JObj kvs =>
      match assoc k kvs with
      | Some v => Return v
      | None => Return default
      end
  | _ => Raise AttributeError
  end.

(** [isinstance(v, dict)], [isinstance(v, str)], [isinstance(v, list)] *)
Definition is_dict (v : json) : bool :=
  match v with JObj _ => true | _ => false end.
Definition is_str (v : json) : bool :=
  match v with JStr _ => true | _ => false end.
Definition is_list (v : json) : bool :=
  match v with JArr _ => true | _ => false end.

(** [v == 'literal'] *)
Definition eq_str (v : json) (s : string) : bool :=
  match v with JStr t => String.eqb t s | _ => false end.

(** [bool(v)] *)
Definition truthy (v : json) : bool :=
  match v with
  | JNull => false
  | JBool b => b
  | JInt z => negb (z =? 0)%Z
  | JStr s => nonempty s
  | JArr l => match l with [] => false | _ => true end
  | JObj kvs => match kvs with [] => false | _ => true end
  end.

(** [for x in v] *)
Definition iterate (v : json) : py (list json) :=
  match v with
  | JArr l => Return l
  | JObj kvs => Return (map (fun kv => JStr (fst kv)) kvs)
  | JStr s => Return (map (fun c => JStr (String c "")) (list_ascii_of_string s))
  | _ => Raise TypeError
  end.

Definition str_of_Z (z : Z) : string := NilZero.string_of_int (Z.to_int z).

Definition hex_digit (n : nat) : ascii :=
  if (n <? 10)%nat then ascii_of_nat (48 + n) else ascii_of_nat (87 + n).

(** [\xNN] *)
Definition hex_escape (c : ascii) : string :=
  let n := nat_of_ascii c in
  "\x" ++ String (hex_digit (n / 16)) (String (hex_digit (n mod 16)) "").

Definition printable (c : ascii) : bool :=
  let n := nat_of_ascii c in
  ((32 <=? n)%nat && (n <? 127)%nat) || ((161 <=? n)%nat && negb (n =? 173)%nat).

Definition repr_char (quote c : ascii) : string :=
  if Ascii.eqb c quote || Ascii.eqb c "\"%char then String "\"%char (String c "")
  else if Ascii.eqb c "009"%char then "\t"
  else if Ascii.eqb c LF then "\n"
  else if Ascii.eqb c "013"%char then "\r"
  else if printable c then String c ""
  else hex_escape c.

Fixpoint repr_chars (quote : ascii) (s : string) : string :=
  match s with
  | "" => ""
  | String c r => repr_char quote c ++ repr_chars quote r
  end.

(** [repr(s)] for a [str] *)
Definition repr_str (s : string) : string :=
  let quote :=
    if contains "'" s && negb (contains dq s) then "034"%char else "'"%char in
  String quote (repr_chars quote s) ++ String quote "".

(** [repr(v)] *)
Fixpoint repr (v : json) : string :=
  match v with
  | JNull => "None"
  | JBool true => "True"
  | JBool false => "False"
  | JInt z => str_of_Z z
  | JStr s => repr_str s
  | JArr l =>
      "[" ++ join ", " ((fix go (l : list json) : list string :=
                          match l with
                          | [] => []
                          | x :: r => repr x :: go r
                          end) l) ++ "]"
  | JObj kvs =>
      "{" ++ join ", " ((fix go (l : list (string * json)) : list string :=
                          match l with
                          | [] => []
                          | (k, x) :: r => (repr_str k ++ ": " ++ repr x) :: go r
                          end) kvs) ++ "}"
  end.

(** [str(v)], as an f-string field formats it *)
Definition str (v : json) : string :=
  match v with
  | JStr s => s
  | _ => repr v
  end.

(** ** Dictionaries keyed by a correlation id

    [tool_results_map] and [tool_result_images] are Python dicts whose keys
    are whatever value the log carries as id.  A list or a dict is not
    hashable; [True == 1] and [False == 0] as keys. *)

Definition hashable (k : json) : bool :=
  match k with JArr _ | JObj _ => false | _ => true end.

Definition key_eqb (a b : json) : bool :=
  match a, b with
  | JNull, JNull => true
  | JStr s, JStr t => String.eqb s t
  | JInt x, JInt y => (x =? y)%Z
  | JBool x, JBool y => Bool.eqb x y
  | JBool x, JInt y | JInt y, JBool x => (y =? (if x then 1 else 0))%Z
  | _, _ => false
  end.

Definition dict (V : Type) : Type := list (json * V).

Fixpoint lookup {V : Type} (k : json) (m : dict V) : option V :=
  match m with
  | [] => None
  | (k', v) :: r => if key_eqb k k' then Some v else lookup k r
  end.

Fixpoint update {V : Type} (k : json) (v : V) (m : dict V) : dict V :=
  match m with
  | [] => [(k, v)]
  | (k', v') :: r =>
      if key_eqb k k' then (k', v) :: r else (k', v') :: update k v r
  end.

(** [m[k] = v] *)
Definition setitem {V : Type} (m : dict V) (k : json) (v : V) : py (dict V) :=
  if hashable k then Return (update k v m) else Raise TypeError.

(** [m.get(k, default)] *)
Definition getitem {V : Type} (m : dict V) (k : json) (default : V) : py V :=
  if hashable k then
    Return (match lookup k m with Some v => v | None => default end)
  else Raise TypeError.

(** ** [parse_messages], first pass: the result correlator *)

(** [f"data:{src.get('media_type','image/jpeg')};base64,{src.get('data','')}"] *)
Definition data_uri (src : json) : py string :=
  mt <- dget src "media_type" (JStr "image/jpeg") ;;
  data <- dget src "data" (JStr "") ;;
  Return ("data:" ++ str mt ++ ";base64," ++ str data).

(** [a + '\n'] with [a] coming from the log *)
Definition add_nl (a : json) : py string :=
  match a with
  | JStr s => Return (s ++ nl)
  | _ => Raise TypeError
  end.

(** One step of [for rc in result_content]. *)
Definition result_step (acc : string * list string) (rc : json)
  : py (string * list string) :=
  let '(result_text, images) := acc in
  match rc with
  | JObj kvs =>
      ty <- dget rc "type" JNull ;;
      if eq_str ty "text" then
        t <- dget rc "text" (JStr "") ;;
        line <- add_nl t ;;
        Return (result_text ++ line, images)
      else if eq_str ty "image" then
        src <- dget rc "source" (JObj []) ;;
        sty <- dget src "type" JNull ;;
        if eq_str sty "base64" then
          uri <- data_uri src ;;
          Return (result_text, (images ++ [uri])%list)
        else Return acc
      else Return acc
  | _ => Return acc
  end.

Fixpoint foldM {A B : Type} (f : A -> B -> py A) (a : A) (l : list B) : py A :=
  match l with
  | [] => Return a
  | x :: r => a' <- f a x ;; foldM f a' r
  end.

(** [result_text] and [images] of one [tool_result] block's [content]. *)
Definition result_of_content (result_content : json) : py (string * list string) :=
  match result_content with
  | JArr rcs => foldM result_step ("", []) rcs
  | JStr s => Return (s, [])
  | _ => Return ("", [])
  end.

Definition maps : Type := dict string * dict (list string).

(** One step of [for block in content] of the first pass. *)
Definition collect_block (st : maps) (block : json) : py maps :=
  let '(tool_results_map, tool_result_images) := st in
  match block with
  | JObj _ =>
      ty <- dget block "type" JNull ;;
      if eq_str ty "tool_result" then
        tuid <- dget block "tool_use_id" (JStr "") ;;
        result_content <- dget block "content" (JStr "") ;;
        '(result_text, images) <- result_of_content result_content ;;
        if truthy tuid then
          tool_results_map <- setitem tool_results_map tuid (strip result_text) ;;
          match images with
          | [] => Return (tool_results_map, tool_result_images)
          | _ :: _ =>
              tool_result_images <- setitem tool_result_images tuid images ;;
              Return (tool_results_map, tool_result_images)
          end
        else Return st
      else Return st
  | _ => Return st
  end.

(** One step of [for d in all_records] of the first pass. *)
Definition collect_record (st : maps) (d : json) : py maps :=
  ty <- subscript d "type" ;;
  if negb (eq_str ty "user") then Return st
  else
    msg <- dget d "message" (JObj []) ;;
    content <- dget msg "content" (JArr []) ;;
    if is_str content then Return st
    else
      blocks <- iterate content ;;
      foldM collect_block st blocks.

Definition collect_results (all_records : list json) : py maps :=
  foldM collect_record ([], []) all_records.

(** ** [parse_messages], second pass: the turn reconstructor *)

Record tool_entry : Type := {
  name : json;
  input : json;
  id : json;
  result : string;
  result_images : list string
}.

Record turn : Type := {
  role : json;
  timestamp : json;
  texts : list string;
  tool_uses : list tool_entry;
  images : list string
}.

Definition open_marker : string := "<system-reminder>".
Definition close_marker : string := "</system-reminder>".

(** [re.sub(r'<system-reminder>.*?</system-reminder>', '', s, flags=re.DOTALL)]:
    from the first opening marker to the nearest closing marker after it,
    again on what follows.  An opening marker with no closing marker after
    it matches nothing, and neither does any later one. *)
Fixpoint sub_reminders (fuel : nat) (s : string) : string :=
  match fuel with
  | O => s
  | S fuel' =>
      match find_sub open_marker s with
      | None => s
      | Some (before, r) =>
          match find_sub close_marker r with
          | None => s
          | Some (_, rest) => before ++ sub_reminders fuel' rest
          end
      end
  end.

Definition strip_reminders (s : string) : string :=
  sub_reminders (String.length s) s.

(** ['<system-reminder>' in text] *)
Definition py_in (needle : string) (v : json) : py bool :=
  match v with
  | JStr s => Return (contains needle s)
  | JArr l => Return (existsb (fun x => eq_str x needle) l)
  | JObj kvs => Return (existsb (fun kv => String.eqb (fst kv) needle) kvs)
  | _ => Raise TypeError
  end.

(** [re.sub(..., text)] on a value of the log *)
Definition re_sub_reminders (text : json) : py string :=
  match text with
  | JStr s => Return (strip_reminders s)
  | _ => Raise TypeError
  end.

(** [text.strip()] on a value of the log *)
Definition py_strip (text : json) : py string :=
  match text with
  | JStr s => Return (strip s)
  | _ => Raise AttributeError
  end.

Definition as_str (text : json) : string :=
  match text with JStr s => s | _ => "" end.

(** The [btype == 'text'] arm: the texts the block adds to the turn. *)
Definition text_block (role : json) (block : json) : py (list string) :=
  text <- dget block "text" (JStr "") ;;
  marked <- py_in open_marker text ;;
  if marked && eq_str role "user" then
    subbed <- re_sub_reminders text ;;
    let cleaned := strip subbed in
    if nonempty cleaned then Return [cleaned] else Return []
  else
    stripped <- py_strip text ;;
    if nonempty stripped then Return [as_str text] else Return [].

(** The [btype == 'tool_use'] arm. *)
Definition tool_use_block (st : maps) (block : json) : py tool_entry :=
  let '(tool_results_map, tool_result_images) := st in
  tuid <- dget block "id" (JStr "") ;;
  nm <- dget block "name" (JStr "unknown") ;;
  inp <- dget block "input" (JObj []) ;;
  res <- getitem tool_results_map tuid "" ;;
  imgs <- getitem tool_result_images tuid [] ;;
  Return {| name := nm; input := inp; id := tuid;
            result := res; result_images := imgs |}.

(** The [btype == 'image'] arm: the data URIs the block adds. *)
Definition image_block (block : json) : py (list string) :=
  src <- dget block "source" (JObj []) ;;
  sty <- dget src "type" JNull ;;
  if eq_str sty "base64" then
    uri <- data_uri src ;;
    Return [uri]
  else Return [].

(** One step of [for block in content] of the second pass. *)
Definition turn_block (st : maps) (t : turn) (block : json) : py turn :=
  match block with
  | JObj _ =>
      btype <- dget block "type" (JStr "") ;;
      if eq_str btype "text" then
        new <- text_block (role t) block ;;
        Return {| role := role t; timestamp := timestamp t;
                  texts := (texts t ++ new)%list;
                  tool_uses := tool_uses t; images := images t |}
      else if eq_str btype "tool_use" then
        tool_entry <- tool_use_block st block ;;
        Return {| role := role t; timestamp := timestamp t;
                  texts := texts t;
                  tool_uses := (tool_uses t ++ [tool_entry])%list;
                  images := images t |}
      else if eq_str btype "image" then
        new <- image_block block ;;
        Return {| role := role t; timestamp := timestamp t;
                  texts := texts t; tool_uses := tool_uses t;
                  images := (images t ++ new)%list |}
      else Return t
  | _ => Return t
  end.

Definition is_nil {A : Type} (l : list A) : bool :=
  match l with [] => true | _ => false end.

(** The test that guards [messages.append(turn)]. *)
Definition keep (t : turn) : bool :=
  if eq_str (role t) "user" then
    negb (is_nil (texts t)) || negb (is_nil (images t))
  else if eq_str (role t) "assistant" then
    negb (is_nil (texts t)) || negb (is_nil (tool_uses t))
    || negb (is_nil (images t))
  else false.

(** The turn built from one record of type user or assistant. *)
Definition build_turn (st : maps) (d : json) : py turn :=
  ty <- subscript d "type" ;;
  msg <- dget d "message" (JObj []) ;;
  rl <- dget msg "role" ty ;;
  content <- dget msg "content" (JArr []) ;;
  ts <- dget d "timestamp" (JStr "") ;;
  let content :=
    if is_str content
    then JArr [JObj [("type", JStr "text"); ("text", content)]]
    else content in
  blocks <- iterate content ;;
  foldM (turn_block st)
        {| role := rl; timestamp := ts;
           texts := []; tool_uses := []; images := [] |}
        blocks.

(** One step of [for d in all_records] of the second pass. *)
Definition turn_record (st : maps) (messages : list turn) (d : json)
  : py (list turn) :=
  ty <- subscript d "type" ;;
  if negb (eq_str ty "user" || eq_str ty "assistant") then Return messages
  else
    t <- build_turn st d ;;
    if keep t then Return (messages ++ [t])%list else Return messages.

Definition build_turns (st : maps) (all_records : list json) : py (list turn) :=
  foldM (turn_record st) [] all_records.

(** [parse_messages], from the parsed records on. *)
Definition parse_messages (all_records : list json) : py (list turn) :=
  st <- collect_results all_records ;;
  build_turns st all_records.

(** ** The log as the specification reads it

    Pure readers of a record, used to state what the two passes compute. *)

(** The value under [k], or [default] when [d] is no mapping or lacks [k]. *)
Definition field (d : json) (k : string) (default : json) : json :=
  match d with
  | JObj kvs => match assoc k kvs with Some v => v | None => default end
  | _ => default
  end.

(** A content block (a mapping) of the given type. *)
Definition is_block (ty : string) (b : json) : bool :=
  is_dict b && eq_str (field b "type" JNull) ty.

(** The blocks of a record whose message content is a list. *)
Definition content_blocks (d : json) : list json :=
  match field (field d "message" (JObj [])) "content" (JArr []) with
  | JArr l => l
  | _ => []
  end.

(** The [tool_result] blocks of the log, in file order: those of the
    records of type user. *)
Definition tool_results (all_records : list json) : list json :=
  flat_map (fun d =>
              if eq_str (field d "type" JNull) "user"
              then filter (is_block "tool_result") (content_blocks d)
              else [])
           all_records.

(** The last element of [l] that satisfies [p]. *)
Definition last_such {A : Type} (p : A -> bool) (l : list A) : option A :=
  find p (rev l).

Definition block_id (b : json) : json := field b "tool_use_id" (JStr "").

(** The texts of the sub-blocks of type text of a [tool_result] content. *)
Definition text_parts (result_content : json) : list string :=
  match result_content with
  | JArr rcs =>
      map (fun rc => as_str (field rc "text" (JStr "")))
          (filter (is_block "text") rcs)
  | _ => []
  end.

(** The result text of a [tool_result] block as the specification words
    it: the text sub-blocks joined with newline, then trimmed; a content
    that is a single string, trimmed. *)
Definition spec_result_text (b : json) : string :=
  match field b "content" (JStr "") with
  | JStr s => strip s
  | JArr rcs => strip (join nl (text_parts (JArr rcs)))
  | _ => ""
  end.

Definition uri_of (src : json) : string :=
  "data:" ++ str (field src "media_type" (JStr "image/jpeg"))
          ++ ";base64," ++ str (field src "data" (JStr "")).

(** An image sub-block whose source is base64 data. *)
Definition is_base64_image (rc : json) : bool :=
  is_block "image" rc
  && eq_str (field (field rc "source" (JObj [])) "type" JNull) "base64".

(** The data URIs of the image sub-blocks of a [tool_result] content. *)
Definition image_parts (result_content : json) : list string :=
  match result_content with
  | JArr rcs =>
      map (fun rc => uri_of (field rc "source" (JObj [])))
          (filter is_base64_image rcs)
  | _ => []
  end.

Definition spec_result_images (b : json) : list string :=
  image_parts (field b "content" (JStr "")).

(** The visibility rule in the words of the specification. *)
Definition visible (t : turn) : bool :=
  if eq_str (role t) "user" then
    existsb nonempty (texts t) || (0 <? List.length (images t))%nat
  else if eq_str (role t) "assistant" then
    existsb nonempty (texts t) || (0 <? List.length (tool_uses t))%nat
    || (0 <? List.length (images t))%nat
  else false.

(** A record of type user or assistant. *)
Definition conversational (d : json) : bool :=
  eq_str (field d "type" JNull) "user"
  || eq_str (field d "type" JNull) "assistant".

(** The block is a result for the correlation id [k]: it carries an id,
    and that id equals [k] as a dictionary key. *)
Definition result_for (k : json) (b : json) : bool :=
  truthy (block_id b) && key_eqb k (block_id b).

Definition carries_images (b : json) : bool :=
  negb (is_nil (spec_result_images b)).

(** What scanning the [tool_result] blocks [l] leaves in the two
    dictionaries: under each id the text of its last block, and the images
    of its last block that carries any. *)
Definition leaves (st st' : maps) (l : list json) : Prop :=
  forall k,
    lookup k (fst st') =
      match last_such (result_for k) l with
      | Some b => Some (spec_result_text b)
      | None => lookup k (fst st)
      end
    /\ lookup k (snd st') =
      match last_such (fun b => result_for k b && carries_images b) l with
      | Some b => Some (spec_result_images b)
      | None => lookup k (snd st)
      end.

(** The computation returns (raises nothing). *)
Definition returns {A : Type} (c : py A) : Prop := exists a, c = Return a.

(** The invocation carries what the correlation mapping holds under its
    id: empty text and no images when the id is unmatched. *)
Definition resolved (st : maps) (e : tool_entry) : Prop :=
  result e = match lookup (id e) (fst st) with Some v => v | None => "" end
  /\ result_images e =
       match lookup (id e) (snd st) with Some v => v | None => [] end.

(** What holds of a turn while its blocks are read. *)
Definition turn_inv (st : maps) (r : json) (t : turn) : Prop :=
  role t = r
  /\ Forall (fun s => nonempty s = true) (texts t)
  /\ Forall (resolved st) (tool_uses t).

(** ** Sample logs *)

Definition text_blk (s : string) : json :=
  JObj [("type", JStr "text"); ("text", JStr s)].

Definition tool_use_blk (k : string) (nm : string) (inp : json) : json :=
  JObj [("type", JStr "tool_use"); ("id", JStr k); ("name", JStr nm);
        ("input", inp)].

Definition tool_result_blk (k : string) (content : json) : json :=
  JObj [("type", JStr "tool_result"); ("tool_use_id", JStr k);
        ("content", content)].

Definition record (ty : string) (content : json) : json :=
  JObj [("type", JStr ty);
        ("message", JObj [("role", JStr ty); ("content", content)]);
        ("timestamp", JStr "2025-01-01T10:00:00Z")].

(** A user prompt, an assistant turn that calls a tool, and the record
    that carries the tool's result. *)
Definition sample_result : json :=
  tool_result_blk "toolu_01"
    (JArr [text_blk "a.txt"; text_blk ("b.txt" ++ nl)]).

Definition sample_log : list json :=
  [ record "user" (JStr "list the files");
    record "assistant"
      (JArr [text_blk "Running ls.";
             tool_use_blk "toolu_01" "Bash" (JObj [("command", JStr "ls")])]);
    record "user" (JArr [sample_result]) ].

Definition sample_entry : tool_entry :=
  {| name := JStr "Bash"; input := JObj [("command", JStr "ls")];
     id := JStr "toolu_01"; result := "a.txt" ++ nl ++ "b.txt";
     result_images := [] |}.

Definition sample_turns : list turn :=
  [ {| role := JStr "user"; timestamp := JStr "2025-01-01T10:00:00Z";
       texts := ["list the files"]; tool_uses := []; images := [] |};
    {| role := JStr "assistant"; timestamp := JStr "2025-01-01T10:00:00Z";
       texts := ["Running ls."]; tool_uses := [sample_entry]; images := [] |} ].

(** Two results under one correlation id. *)
Definition duplicate_log : list json :=
  [ record "user" (JArr [tool_result_blk "k" (JStr "first");
                         tool_result_blk "k" (JStr "second")]) ].

(** A record of type user (role user) whose whole content is the one
    text [s]: a string content, or a list holding a single text block. *)
Definition only_text (d : json) (s : string) : bool :=
  let msg := field d "message" (JObj []) in
  is_dict d && eq_str (field d "type" JNull) "user"
  && is_dict msg && eq_str (field msg "role" (JStr "user")) "user"
  && match field msg "content" (JArr []) with
     | JStr s' => String.eqb s' s
     | JArr [JObj b] =>
         eq_str (field (JObj b) "type" (JStr "")) "text"
         && eq_str (field (JObj b) "text" (JStr "")) s
     | _ => false
     end.

(** A user record whose text is one system annotation. *)
Definition reminder_record : json :=
  record "user" (JArr [text_blk (open_marker ++ "note" ++ close_marker)]).

(** ** Well-formed records

    The shape of the records that Claude Code writes, as far as the two
    passes read it. *)

(** A sub-block of a [tool_result] content. *)
Definition wf_sub (rc : json) : bool :=
  negb (is_dict rc)
  || (if eq_str (field rc "type" JNull) "text"
      then is_str (field rc "text" (JStr ""))
      else if eq_str (field rc "type" JNull) "image"
           then is_dict (field rc "source" (JObj []))
           else true).

(** A content block: string text, hashable ids, image sources that are
    mappings. *)
Definition wf_block (b : json) : bool :=
  negb (is_dict b)
  || (let ty := field b "type" (JStr "") in
      if eq_str ty "tool_result" then
        hashable (block_id b)
        && match field b "content" (JStr "") with
           | JArr rcs => forallb wf_sub rcs
           | _ => true
           end
      else if eq_str ty "text" then is_str (field b "text" (JStr ""))
      else if eq_str ty "tool_use" then hashable (field b "id" (JStr ""))
      else if eq_str ty "image" then is_dict (field b "source" (JObj []))
      else true).

(** A record: a mapping with a [type] key; when a user or assistant
    record, its message is a mapping whose content is a string or a list
    of well-formed blocks. *)
Definition wf_record (d : json) : bool :=
  match d with
  | JObj kvs =>
      match assoc "type" kvs with
      | None => false
      | Some ty =>
          if eq_str ty "user" || eq_str ty "assistant" then
            match field d "message" (JObj []) with
            | JObj msg =>
                match field (JObj msg) "content" (JArr []) with
                | JStr _ => true
                | JArr blocks => forallb wf_block blocks
                | _ => false
                end
            | _ => false
            end
          else true
      end
  | _ => false
  end.

(** ** The Markdown-subset transducer [md_to_html] *)

(** [html.escape(text)], quotes included. *)
Definition escape_char (c : ascii) : string :=
  if Ascii.eqb c "&"%char then "&amp;"
  else if Ascii.eqb c "<"%char then "&lt;"
  else if Ascii.eqb c ">"%char then "&gt;"
  else if Ascii.eqb c "034"%char then "&quot;"
  else if Ascii.eqb c "'"%char then "&#x27;"
  else String c "".

Fixpoint html_escape (s : string) : string :=
  match s with
  | "" => ""
  | String c r => escape_char c ++ html_escape r
  end.

(** [re.sub] and [str.replace], given what the pattern does at the head of
    a text: [m s = Some (out, rest)] when it matches a non-empty prefix of
    [s], to be replaced by [out], and [rest] is what follows the match.
    The scan resumes after the match; [skip] counts the characters of the
    match still to pass over. *)
Fixpoint sub_from (m : string -> option (string * string)) (skip : nat)
         (s : string) : string :=
  match s with
  | "" => ""
  | String c s' =>
      match skip with
      | S k => sub_from m k s'
      | O =>
          match m s with
          | Some (out, rest) =>
              out ++ sub_from m (String.length s' - String.length rest) s'
          | None => String c (sub_from m 0 s')
          end
      end
  end.

Definition sub (m : string -> option (string * string)) (s : string) : string :=
  sub_from m 0 s.

(** The longest prefix of characters that satisfy [p], and the rest. *)
Fixpoint span (p : ascii -> bool) (s : string) : string * string :=
  match s with
  | "" => ("", "")
  | String c r =>
      if p c then let '(a, b) := span p r in (String c a, b) else ("", s)
  end.

(** A lazy [.*?] followed by [stop], where [.] matches no newline: the
    text up to the first [stop], with no newline before it. *)
Fixpoint lazy_until (stop : string) (s : string) : option (string * string) :=
  match drop_prefix stop s with
  | Some rest => Some ("", rest)
  | None =>
      match s with
      | "" => None
      | String c r =>
          if Ascii.eqb c LF then None
          else match lazy_until stop r with
               | Some (a, b) => Some (String c a, b)
               | None => None
               end
      end
  end.

(** [\w] on U+0000..U+00FF. *)
Definition is_word (c : ascii) : bool :=
  let n := nat_of_ascii c in
  ((48 <=? n) && (n <=? 57) || (65 <=? n) && (n <=? 90)
   || (97 <=? n) && (n <=? 122) || (n =? 95)
   || (n =? 170) || (n =? 178) || (n =? 179) || (n =? 181) || (n =? 185)
   || (n =? 186) || (188 <=? n) && (n <=? 190)
   || (192 <=? n) && (n <=? 214) || (216 <=? n) && (n <=? 246)
   || (248 <=? n))%nat.

Definition fence : string := "```".

(** The fenced code block: a fence, word characters (the language tag),
    a newline, then lazily anything up to the next fence ([re.DOTALL]);
    replaced by [code_block]. *)
Definition code_block_at (s : string) : option (string * string) :=
  match drop_prefix fence s with
  | Some r =>
      match snd (span is_word r) with
      | String c r' =>
          if Ascii.eqb c LF then
            match find_sub fence r' with
            | Some (code, rest) =>
                Some ("<pre class=" ++ dq ++ "code-block" ++ dq ++ "><code>"
                        ++ code ++ "</code></pre>", rest)
            | None => None
            end
          else None
      | "" => None
      end
  | None => None
  end.

(** [`([^`]+)`] *)
Definition inline_code_at (s : string) : option (string * string) :=
  match s with
  | String c r =>
      if Ascii.eqb c "`"%char then
        match span (fun x => negb (Ascii.eqb x "`"%char)) r with
        | (String b body, String _ rest) =>
            Some ("<code class=" ++ dq ++ "inline-code" ++ dq ++ ">"
                    ++ String b body ++ "</code>", rest)
        | _ => None
        end
      else None
  | "" => None
  end.

(** [\*\*(.+?)\*\*] *)
Definition bold_at (s : string) : option (string * string) :=
  match drop_prefix "**" s with
  | Some (String c r) =>
      if Ascii.eqb c LF then None
      else match lazy_until "**" r with
           | Some (body, rest) =>
               Some ("<strong>" ++ String c body ++ "</strong>", rest)
           | None => None
           end
  | _ => None
  end.

(** [text.split(c)] for a one-character separator. *)
Fixpoint split_on (c : ascii) (s : string) : list string :=
  match s with
  | "" => [""]
  | String a r =>
      if Ascii.eqb a c then "" :: split_on c r
      else match split_on c r with
           | x :: l => String a x :: l
           | [] => [String a ""]
           end
  end.

(** A substitution anchored at the line starts ([re.MULTILINE]) whose
    pattern runs to the end of the line: the lines are rewritten one by
    one. *)
Definition sub_lines (f : string -> string) (s : string) : string :=
  join nl (map f (split_on LF s)).

(** [^prefix(.+)$] replaced by [open \1 close] on one line. *)
Definition wrap_line (prefix opening closing : string) (line : string) : string :=
  match drop_prefix prefix line with
  | Some (String c r) => opening ++ String c r ++ closing
  | _ => line
  end.

(** [s.endswith(p)] *)
Fixpoint endswith (s p : string) : bool :=
  String.eqb s p
  || match s with
     | "" => false
     | String _ r => endswith r p
     end.

(** [re.match(r'^[-:]+$', c)] on a cell (a cell holds no newline). *)
Definition is_rule_cell (c : string) : bool :=
  nonempty c
  && forallb (fun x => Ascii.eqb x "-"%char || Ascii.eqb x ":"%char)
             (list_ascii_of_string c).

(** The test [ '|' in stripped and stripped.startswith('|') and
    stripped.endswith('|') ] of a line. *)
Definition is_table_line (line : string) : bool :=
  let stripped := strip line in
  contains "|" stripped && startswith stripped "|" && endswith stripped "|".

(** [[c.strip() for c in stripped.split('|')[1:-1]]] *)
Definition cells_of (line : string) : list string :=
  map strip (removelast (tl (split_on "|"%char (strip line)))).

(** [all(re.match(r'^[-:]+$', c) for c in cells)] *)
Definition is_separator (line : string) : bool :=
  forallb is_rule_cell (cells_of line).

Definition row (tag : string) (cells : list string) : string :=
  "<tr>" ++ join "" (map (fun c => "<" ++ tag ++ ">" ++ c ++ "</" ++ tag ++ ">") cells)
         ++ "</tr>".

Definition table_open : string := "<table class=" ++ dq ++ "md-table" ++ dq ++ ">".
Definition table_close : string := "</table>".

(** The loop over the lines of the text, with its flag [in_table]; the
    result is the list [result], closing tag of a last table included. *)
Fixpoint table_lines (in_table : bool) (lines : list string) : list string :=
  match lines with
  | [] => if in_table then [table_close] else []
  | line :: rest =>
      if is_table_line line then
        if is_separator line then table_lines in_table rest
        else if negb in_table then
          table_open :: row "th" (cells_of line) :: table_lines true rest
        else row "td" (cells_of line) :: table_lines true rest
      else
        (if in_table then [table_close] else [])
          ++ line :: table_lines false rest
  end.

Definition tables (s : string) : string :=
  join nl (table_lines false (split_on LF s)).

(** One [<li>.*?</li>\n?] at the head of the text: what follows it. *)
Definition list_item_at (s : string) : option string :=
  match drop_prefix "<li>" s with
  | Some r =>
      match lazy_until "</li>" r with
      | Some (_, rest) =>
          match rest with
          | String c rest' => if Ascii.eqb c LF then Some rest' else Some rest
          | "" => Some rest
          end
      | None => None
      end
  | None => None
  end.

(** What follows the longest run of items at the head of the text. *)
Fixpoint after_items (fuel : nat) (s : string) : string :=
  match fuel with
  | O => s
  | S fuel' =>
      match list_item_at s with
      | Some rest => after_items fuel' rest
      | None => s
      end
  end.

(** [s[:n]] *)
Fixpoint take (n : nat) (s : string) : string :=
  match n, s with
  | S k, String c r => String c (take k r)
  | _, _ => ""
  end.

(** [(<li>.*?</li>\n?)+] replaced by [<ul>] + the match + [</ul>]. *)
Definition list_at (s : string) : option (string * string) :=
  match list_item_at s with
  | Some _ =>
      let rest := after_items (String.length s) s in
      Some ("<ul>" ++ take (String.length s - String.length rest) s ++ "</ul>",
            rest)
  | None => None
  end.

(** [\[([^\]]+)\]\(([^)]+)\)] *)
Definition link_at (s : string) : option (string * string) :=
  match s with
  | String c r =>
      if Ascii.eqb c "["%char then
        match span (fun x => negb (Ascii.eqb x "]"%char)) r with
        | (String t text, String _ (String p r')) =>
            if Ascii.eqb p "("%char then
              match span (fun x => negb (Ascii.eqb x ")"%char)) r' with
              | (String u url, String _ rest) =>
                  Some ("<a href=" ++ dq ++ String u url ++ dq ++ " target="
                          ++ dq ++ "_blank" ++ dq ++ ">" ++ String t text ++ "</a>",
                        rest)
              | _ => None
              end
            else None
        | _ => None
        end
      else None
  | "" => None
  end.

(** [\n\n+] *)
Definition paragraph_break_at (s : string) : option (string * string) :=
  match drop_prefix (nl ++ nl) s with
  | Some r => Some ("</p><p>", snd (span (Ascii.eqb LF) r))
  | None => None
  end.

(** A literal pattern. *)
Definition literal_at (pattern out : string) (s : string) : option (string * string) :=
  match drop_prefix pattern s with
  | Some rest => Some (out, rest)
  | None => None
  end.

(** The rules applied to the escaped text, in the order of the source. *)
Definition md_rules (text : string) : string :=
  let text := sub code_block_at text in
  let text := sub inline_code_at text in
  let text := sub bold_at text in
  let text := sub_lines (wrap_line "#### " "<h4>" "</h4>") text in
  let text := sub_lines (wrap_line "### " "<h3>" "</h3>") text in
  let text := sub_lines (wrap_line "## " "<h2>" "</h2>") text in
  let text := sub_lines (wrap_line "# " "<h1>" "</h1>") text in
  let text := tables text in
  let text := sub_lines (wrap_line "- " "<li>" "</li>") text in
  let text := sub list_at text in
  let text := sub link_at text in
  let text := sub paragraph_break_at text in
  let text := "<p>" ++ text ++ "</p>" in
  let text := sub (literal_at "<p></p>" "") text in
  let text := sub (literal_at "<p>---</p>" "<hr>") text in
  text.

Definition md_to_html (text : string) : string := md_rules (html_escape text).

(** ** The table rule, as a specification of one run of table lines *)

(** The lines after a run: none, or a line that is no table line. *)
Definition run_ends (rest : list string) : bool :=
  match rest with
  | [] => true
  | line :: _ => negb (is_table_line line)
  end.

(** The rows that are not separators. *)
Definition data_rows (rows : list string) : list string :=
  filter (fun line => negb (is_separator line)) rows.

(** The table made of the given rows: the first one the header row, the
    others body rows. *)
Definition table_of (rows : list string) : list string :=
  match rows with
  | [] => []
  | header :: body =>
      table_open :: row "th" (cells_of header)
        :: map (fun line => row "td" (cells_of line)) body ++ [table_close]
  end.

(** ** Text without Markdown syntax *)

Fixpoint all_chars (p : ascii -> bool) (s : string) : bool :=
  match s with
  | "" => true
  | String c r => p c && all_chars p r
  end.

Definition is_markup (c : ascii) : bool :=
  Ascii.eqb c "`"%char || Ascii.eqb c "*"%char || Ascii.eqb c "|"%char
  || Ascii.eqb c "-"%char || Ascii.eqb c "["%char || Ascii.eqb c LF.

(** No backtick, asterisk, pipe, hyphen, bracket or newline, and no hash
    sign at the start. *)
Definition markup_free (text : string) : bool :=
  all_chars (fun c => negb (is_markup c)) text && negb (startswith text "#").

(** A character of an escaped, markup-free text. *)
Definition quiet (c : ascii) : bool :=
  negb (is_markup c) && negb (Ascii.eqb c "<"%char).

(** A character that [html.escape] never leaves in its output. *)
Definition is_raw (c : ascii) : bool :=
  Ascii.eqb c "<"%char || Ascii.eqb c ">"%char || Ascii.eqb c "034"%char
  || Ascii.eqb c "'"%char.

(** ** The HTML renderer: the output of one tool invocation *)

(** [c.lower()] on U+0000..U+00FF: A..Z, and the capital letters of
    U+00C0..U+00DE, the multiplication sign excepted. *)
Definition lower_char (c : ascii) : ascii :=
  let n := nat_of_ascii c in
  if ((65 <=? n) && (n <=? 90)
      || (192 <=? n) && (n <=? 222) && negb (n =? 215))%nat
  then ascii_of_nat (n + 32) else c.

(** [s.lower()] *)
Fixpoint lower (s : string) : string :=
  match s with
  | "" => ""
  | String c r => String (lower_char c) (lower r)
  end.

Definition str_of_nat (n : nat) : string := str_of_Z (Z.of_nat n).

(** The idiom [if len(s) > limit: s = s[:limit] + suffix]. *)
Definition cut (limit : nat) (suffix : string) (s : string) : string :=
  if (limit <? String.length s)%nat then take limit s ++ suffix else s.

(** The text shown for a result: cut at 2000 characters, with a note of
    the full length. *)
Definition display_result (result_text : string) : string :=
  cut 2000 (nl ++ "... (" ++ str_of_nat (String.length result_text)
               ++ " chars total)")
      result_text.

Definition failure_keywords : list string :=
  ["error"; "traceback"; "exception"; "failed"].

(** [' error' if any(w in display_result.lower() for w in [...]) else ''] *)
Definition err_class (display_result : string) : string :=
  if existsb (fun w => contains w (lower display_result)) failure_keywords
  then " error" else "".

(** The element that holds the displayed text, with its class. *)
Definition output_content (cls display : string) : string :=
  "        <div class=" ++ dq ++ "tool-output-content" ++ cls ++ dq ++ ">"
    ++ html_escape display ++ "</div>".

Definition output_image (img_uri : string) : string :=
  "        <img class=" ++ dq ++ "tool-result-img" ++ dq ++ " src="
    ++ dq ++ img_uri ++ dq ++ " />".

Definition output_open : string :=
  "      <div class=" ++ dq ++ "tool-output" ++ dq ++ ">".
Definition output_label : string :=
  "        <div class=" ++ dq ++ "tool-output-label" ++ dq ++ ">Output</div>".
Definition output_close : string := "      </div>".

(** The [html_parts] appended for the output of one tool invocation. *)
Definition tool_output (tool : tool_entry) : list string :=
  let result_text := result tool in
  if nonempty result_text || negb (is_nil (result_images tool)) then
    ([output_open; output_label]
     ++ (if nonempty result_text then
           [output_content (err_class (display_result result_text))
                           (display_result result_text)]
         else [])
     ++ map output_image (result_images tool)
     ++ [output_close])%list
  else [].

(** The text holds the keyword [w], whatever the case of its letters. *)
Definition mentions (w : string) (s : string) : Prop :=
  exists a u b, s = a ++ u ++ b /\ lower u = w.

(** The text holds one of the failure keywords, whatever the case. *)
Definition mentions_failure (s : string) : Prop :=
  exists w, In w failure_keywords /\ mentions w s.

(** [n] copies of a character. *)
Fixpoint replicate (n : nat) (c : ascii) : string :=
  match n with
  | O => ""
  | S k => String c (replicate k c)
  end.

(** A tool invocation whose result mentions an error after 2000
    characters of other output. *)
Definition long_result : tool_entry :=
  {| name := JStr "Bash"; input := JObj [("command", JStr "make")];
     id := JStr "toolu_02"; result := replicate 2000 "a" ++ "error";
     result_images := [] |}.

(** ** The tool formatters *)

(** [len(v)] *)
Definition py_len (v : json) : py nat :=
  match v with
  | JStr s => Return (String.length s)
  | JArr l => Return (List.length l)
  | JObj kvs => Return (List.length kvs)
  | _ => Raise TypeError
  end.

(** [v[:n]] (a mapping refuses the slice: [TypeError] up to CPython 3.11,
    the version modelled; [KeyError] from 3.12 on). *)
Definition py_slice (v : json) (n : nat) : py json :=
  match v with
  | JStr s => Return (JStr (take n s))
  | JArr l => Return (JArr (firstn n l))
  | _ => Raise TypeError
  end.

(** [v[:n] + suffix] *)
Definition slice_add (v : json) (n : nat) (suffix : string) : py json :=
  match v with
  | JStr s => Return (JStr (take n s ++ suffix))
  | _ => Raise TypeError
  end.

(** The idiom [if len(v) > limit: v = v[:keep] + suffix] on a value of the
    log. *)
Definition cut_value (limit keep : nat) (suffix : string) (v : json) : py json :=
  n <- py_len v ;;
  if (limit <? n)%nat then slice_add v keep suffix else Return v.

(** [inp.items()] *)
Definition items (inp : json) : py (list (string * json)) :=
  match inp with
  | JObj kvs => Return kvs
  | _ => Raise AttributeError
  end.

(** [s.split(sep)] for a separator of several characters. *)
Fixpoint split_str (fuel : nat) (sep s : string) : list string :=
  match fuel with
  | O => [s]
  | S fuel' =>
      match find_sub sep s with
      | Some (a, b) => a :: split_str fuel' sep b
      | None => [s]
      end
  end.

Definition split_dunder (s : string) : list string :=
  split_str (String.length s) "__" s.

(** [json.dumps(s)] of a string, [ensure_ascii] on. *)
Definition json_char (c : ascii) : string :=
  let n := nat_of_ascii c in
  if Ascii.eqb c "034"%char then "\" ++ dq
  else if Ascii.eqb c "\"%char then "\\"
  else if Ascii.eqb c LF then "\n"
  else if Ascii.eqb c "013"%char then "\r"
  else if Ascii.eqb c "009"%char then "\t"
  else if Ascii.eqb c "008"%char then "\b"
  else if Ascii.eqb c "012"%char then "\f"
  else if ((32 <=? n) && (n <=? 126))%nat then String c ""
  else "\u00" ++ String (hex_digit (n / 16)) (String (hex_digit (n mod 16)) "").

Fixpoint json_chars (s : string) : string :=
  match s with
  | "" => ""
  | String c r => json_char c ++ json_chars r
  end.

Definition json_str (s : string) : string := dq ++ json_chars s ++ dq.

Definition indent (level : nat) : string := replicate (2 * level) " ".

(** [json.dumps(v, indent=2)], at nesting depth [level]. *)
Fixpoint dumps (level : nat) (v : json) : string :=
  match v with
  | JNull => "null"
  | JBool true => "true"
  | JBool false => "false"
  | JInt z => str_of_Z z
  | JStr s => json_str s
  | JArr l =>
      match l with
      | [] => "[]"
      | _ =>
          "[" ++ nl
            ++ join ("," ++ nl)
                 ((fix go (l : list json) : list string :=
                     match l with
                     | [] => []
                     | x :: r => (indent (S level) ++ dumps (S level) x) :: go r
                     end) l)
            ++ nl ++ indent level ++ "]"
      end
  | JObj kvs =>
      match kvs with
      | [] => "{}"
      | _ =>
          "{" ++ nl
            ++ join ("," ++ nl)
                 ((fix go (l : list (string * json)) : list string :=
                     match l with
                     | [] => []
                     | (k, x) :: r =>
                         (indent (S level) ++ json_str k ++ ": "
                            ++ dumps (S level) x) :: go r
                     end) kvs)
            ++ nl ++ indent level ++ "}"
      end
  end.

(** [json.dumps(v, indent=2) if isinstance(v, (dict, list)) else str(v)] *)
Definition dumps_or_str (v : json) : string :=
  if is_dict v || is_list v then dumps 0 v else str v.

(** [name in ('Read', 'Write', 'Edit', 'Glob', 'Grep')] *)
Definition is_file_tool (nm : json) : bool :=
  eq_str nm "Read" || eq_str nm "Write" || eq_str nm "Edit"
  || eq_str nm "Glob" || eq_str nm "Grep".

(** The [MCP server/tool] label of the summary, once ['mcp__' in name]
    holds. *)
Definition mcp_summary (nm : json) : py string :=
  match nm with
  | JStr s =>
      let parts := split_dunder s in
      let server := if contains "__" s then nth 1 parts "" else "?" in
      let tool_name :=
        if (3 <=? List.length parts)%nat then nth 2 parts "" else "?" in
      Return ("MCP " ++ server ++ "/" ++ tool_name)
  | JArr l =>
      if existsb (fun x => eq_str x "__") l then Raise AttributeError
      else Return "MCP ?/?"
  | _ => Raise AttributeError
  end.

(** [tool_summary(tool)]: the one-line label. *)
Definition tool_summary (tool : tool_entry) : py string :=
  let nm := name tool in
  let inp := input tool in
  if eq_str nm "Write" then
    v <- dget inp "file_path" (JStr "?") ;; Return ("Write -> " ++ str v)
  else if eq_str nm "Read" then
    v <- dget inp "file_path" (JStr "?") ;; Return ("Read -> " ++ str v)
  else if eq_str nm "Edit" then
    v <- dget inp "file_path" (JStr "?") ;; Return ("Edit -> " ++ str v)
  else if eq_str nm "Bash" then
    cmd <- dget inp "command" (JStr "") ;;
    cmd <- cut_value 80 77 "..." cmd ;;
    Return ("$ " ++ str cmd)
  else if eq_str nm "Glob" then
    v <- dget inp "pattern" (JStr "?") ;; Return ("Glob -> " ++ str v)
  else if eq_str nm "Grep" then
    v <- dget inp "pattern" (JStr "?") ;; Return ("Grep -> " ++ str v)
  else if eq_str nm "WebSearch" then
    v <- dget inp "query" (JStr "?") ;; Return ("WebSearch: " ++ str v)
  else if eq_str nm "WebFetch" then
    v <- dget inp "url" (JStr "?") ;;
    v <- py_slice v 60 ;;
    Return ("WebFetch: " ++ str v)
  else if eq_str nm "Task" then
    p <- dget inp "prompt" (JStr "?") ;;
    d <- dget inp "description" p ;;
    desc <- py_slice d 60 ;;
    Return ("Task: " ++ str desc)
  else if eq_str nm "Skill" then
    v <- dget inp "skill" (JStr "?") ;; Return ("Skill: " ++ str v)
  else
    mcp <- py_in "mcp__" nm ;;
    if mcp then mcp_summary nm
    else Return (str nm ++ "()").

(** A line appended under a condition [if inp.get(k):]. *)
Definition optional_line (inp : json) (k label : string) : py (list string) :=
  v <- dget inp k JNull ;;
  if truthy v then Return [label ++ str v] else Return [].

(** One step of the loop over the fields of a file tool in the full
    detail. *)
Definition file_field_detail (kv : string * json) : string :=
  let '(k, v) := kv in
  if String.eqb k "content" && (500 <? String.length (str v))%nat then
    k ++ ": (" ++ str_of_nat (String.length (str v)) ++ " chars)"
  else if String.eqb k "old_string" || String.eqb k "new_string" then
    k ++ ":" ++ nl ++ cut 300 "..." (str v)
  else k ++ ": " ++ str v.

(** [tool_full_detail(tool)]: the text of the expanded view. *)
Definition tool_full_detail (tool : tool_entry) : py string :=
  let nm := name tool in
  let inp := input tool in
  let head := "Tool: " ++ str nm in
  parts <-
    (if eq_str nm "Bash" then
       cmd <- dget inp "command" (JStr "") ;;
       d <- optional_line inp "description" "Description: " ;;
       Return (("Command:" ++ nl ++ str cmd) :: d)
     else if is_file_tool nm then
       kvs <- items inp ;;
       Return (map file_field_detail kvs)
     else if eq_str nm "WebSearch" then
       q <- dget inp "query" (JStr "") ;;
       Return ["Query: " ++ str q]
     else if eq_str nm "WebFetch" then
       u <- dget inp "url" (JStr "") ;;
       p <- dget inp "prompt" (JStr "") ;;
       Return ["URL: " ++ str u; "Prompt: " ++ str p]
     else if eq_str nm "Task" then
       d <- dget inp "description" (JStr "") ;;
       prompt <- dget inp "prompt" (JStr "") ;;
       prompt <- cut_value 500 500 "..." prompt ;;
       a <- optional_line inp "subagent_type" "Agent: " ;;
       Return (("Description: " ++ str d) :: ("Prompt: " ++ str prompt) :: a)
     else if eq_str nm "Skill" then
       s <- dget inp "skill" (JStr "") ;;
       a <- optional_line inp "args" "Args: " ;;
       Return (("Skill: " ++ str s) :: a)
     else
       mcp <- py_in "mcp__" nm ;;
       kvs <- items inp ;;
       if mcp then
         Return (map (fun kv => fst kv ++ ": " ++ cut 300 "..." (dumps_or_str (snd kv)))
                     kvs)
       else
         Return (map (fun kv => fst kv ++ ": " ++ cut 300 "..." (str (snd kv))) kvs)) ;;
  Return (join nl (head :: parts)).

(** The result section of the plain-text re-export. *)
Definition raw_result_lines (tool : tool_entry) : list string :=
  if nonempty (result tool) then
    [nl ++ "[Output]";
     cut 5000 (nl ++ "... (" ++ str_of_nat (String.length (result tool))
                  ++ " chars total)")
         (result tool)]
  else [].

(** The lines [generate_raw_text] appends for one tool invocation. *)
Definition raw_tool_lines (tool : tool_entry) : py (list string) :=
  let nm := name tool in
  let inp := input tool in
  let head := nl ++ "[Tool: " ++ str nm ++ "]" in
  parts <-
    (if eq_str nm "Bash" then
       cmd <- dget inp "command" (JStr "") ;;
       d <- optional_line inp "description" "Description: " ;;
       Return (("Command: " ++ str cmd) :: d)
     else if is_file_tool nm then
       kvs <- items inp ;;
       Return (map (fun kv =>
                      fst kv ++ ": "
                        ++ cut 3000 ("... (" ++ str_of_nat (String.length (str (snd kv)))
                                         ++ " chars)")
                               (str (snd kv)))
                   kvs)
     else if eq_str nm "WebSearch" then
       q <- dget inp "query" (JStr "") ;;
       Return ["Query: " ++ str q]
     else if eq_str nm "WebFetch" then
       u <- dget inp "url" (JStr "") ;;
       p <- dget inp "prompt" (JStr "") ;;
       Return ["URL: " ++ str u; "Prompt: " ++ str p]
     else if eq_str nm "Task" then
       d <- dget inp "description" (JStr "") ;;
       p <- dget inp "prompt" (JStr "") ;;
       a <- optional_line inp "subagent_type" "Agent: " ;;
       Return (("Description: " ++ str d) :: ("Prompt: " ++ str p) :: a)
     else if eq_str nm "Skill" then
       s <- dget inp "skill" (JStr "") ;;
       a <- optional_line inp "args" "Args: " ;;
       Return (("Skill: " ++ str s) :: a)
     else
       kvs <- items inp ;;
       Return (map (fun kv => fst kv ++ ": " ++ cut 3000 "..." (dumps_or_str (snd kv)))
                   kvs)) ;;
  Return (head :: parts ++ raw_result_lines tool)%list.

(** [name == nm and inp.get(k)] *)
Definition named_with (tool : tool_entry) (nm k : string) : py bool :=
  if eq_str (name tool) nm then
    v <- dget (input tool) k JNull ;; Return (truthy v)
  else Return false.

(** The result section of the Markdown renderer. *)
Definition md_result_lines (tool : tool_entry) : list json :=
  if nonempty (result tool) then
    map JStr
        ["<details>"; "<summary>Tool Result</summary>"; ""; "```";
         cut 2000 (nl ++ "... (" ++ str_of_nat (String.length (result tool))
                      ++ " chars)")
             (result tool);
         "```"; ""; "</details>"; ""]
  else [].

(** The compact detail of the Markdown renderer: the values appended to
    [lines] between the two fences (a value that is no [str] makes the
    final [join] raise). *)
Definition md_compact_detail (tool : tool_entry) : py (list json) :=
  let nm := name tool in
  let inp := input tool in
  if eq_str nm "Bash" then
    cmd <- dget inp "command" (JStr "") ;; Return [cmd]
  else
    is_read <- named_with tool "Read" "file_path" ;;
    if is_read then p <- subscript inp "file_path" ;; Return [p]
    else
    is_write <- named_with tool "Write" "file_path" ;;
    if is_write then
      content <- dget inp "content" (JStr "") ;;
      content <- cut_value 500 500 (nl ++ "... (truncated)") content ;;
      p <- subscript inp "file_path" ;;
      Return [JStr ("Write: " ++ str p); content]
    else
    is_edit <- named_with tool "Edit" "file_path" ;;
    if is_edit then
      old <- dget inp "old_string" (JStr "") ;;
      new <- dget inp "new_string" (JStr "") ;;
      old <- cut_value 200 200 "..." old ;;
      new <- cut_value 200 200 "..." new ;;
      p <- subscript inp "file_path" ;;
      Return [JStr ("Edit: " ++ str p); JStr ("- " ++ str old);
              JStr ("+ " ++ str new)]
    else
    is_grep <- named_with tool "Grep" "pattern" ;;
    if is_grep then
      pat <- subscript inp "pattern" ;;
      path <- dget inp "path" (JStr ".") ;;
      Return [JStr ("grep " ++ dq ++ str pat ++ dq ++ " " ++ str path)]
    else
    is_glob <- named_with tool "Glob" "pattern" ;;
    if is_glob then
      pat <- subscript inp "pattern" ;;
      path <- dget inp "path" (JStr ".") ;;
      Return [JStr ("glob " ++ dq ++ str pat ++ dq ++ " " ++ str path)]
    else if eq_str nm "Skill" then
      s <- dget inp "skill" (JStr "") ;;
      a <- dget inp "args" JNull ;;
      Return [JStr ("/" ++ str s ++ (if truthy a then " " ++ str a else ""))]
    else if eq_str nm "WebSearch" then
      q <- dget inp "query" (JStr "") ;; Return [JStr ("search: " ++ str q)]
    else if eq_str nm "WebFetch" then
      u <- dget inp "url" (JStr "") ;; Return [JStr ("fetch " ++ str u)]
    else if eq_str nm "Task" then
      d <- dget inp "description" (JStr "") ;;
      a <- optional_line inp "subagent_type" "Agent: " ;;
      Return (JStr ("Task: " ++ str d) :: map JStr a)
    else
      kvs <- items inp ;;
      Return (map (fun kv =>
                     JStr (fst kv ++ ": " ++ cut 500 "..." (dumps_or_str (snd kv))))
                  kvs).

(** The values [generate_markdown] appends to [lines] for one tool
    invocation. *)
Definition md_tool_lines (tool : tool_entry) : py (list json) :=
  detail <- md_compact_detail tool ;;
  Return ([JStr ("### Tool: " ++ str (name tool)); JStr ""; JStr "```"]
            ++ detail ++ [JStr "```"; JStr ""] ++ md_result_lines tool)%list.

(** A tool invocation with the given name, input fields and result. *)
Definition tool_of (nm : string) (fields : list (string * json)) (res : string)
  : tool_entry :=
  {| name := JStr nm; input := JObj fields; id := JStr "toolu_03";
     result := res; result_images := [] |}.

(** A pattern consumes what it matches: the match is a non-empty prefix
    of the text and [rest] is what follows it. *)
Definition consumes (m : string -> option (string * string)) : Prop :=
  forall s out rest,
    m s = Some (out, rest) -> exists matched, matched <> "" /\ s = matched ++ rest.

(** A block the second pass reads nothing from: no mapping, or a mapping
    whose type is none of text, tool_use, image. *)
Definition inert_block (b : json) : bool :=
  negb (is_dict b)
  || negb (eq_str (field b "type" (JStr "")) "text"
           || eq_str (field b "type" (JStr "")) "tool_use"
           || eq_str (field b "type" (JStr "")) "image").

(** A record of type user or assistant whose message content is a list of
    blocks the second pass reads nothing from, such as a record that only
    carries tool results. *)
Definition inert_record (d : json) : bool :=
  is_dict d && conversational d
  && match field d "message" (JObj []) with
     | JObj msg =>
         match field (JObj msg) "content" (JArr []) with
         | JArr blocks => forallb inert_block blocks
         | _ => false
         end
     | _ => false
     end.

(** A user record that only carries the result of a tool. *)
Definition result_record : json := record "user" (JArr [sample_result]).

(** A record of another type, as Claude Code writes for a summary. *)
Definition summary_record : json :=
  JObj [("type", JStr "summary"); ("summary", JStr "Listing files")].

(** ** Tools with well-typed fields *)

(** A mapping whose values are all strings. *)
Definition string_fields (inp : json) : bool :=
  match inp with
  | JObj kvs => forallb (fun kv => is_str (snd kv)) kvs
  | _ => false
  end.

(** The tool names the formatters know. *)
Definition known_tools : list string :=
  ["Write"; "Read"; "Edit"; "Bash"; "Glob"; "Grep"; "WebSearch"; "WebFetch";
   "Task"; "Skill"].

(** ** Names: [detect_session_name], [detect_project_name], the file name *)








(** ** The plain-text re-export embedded in the page *)

(** [json.dumps(raw_text).replace('</script>', r'<\/script>')] *)
Definition raw_text_js (raw_text : string) : string :=
  sub (literal_at "</script>" "<\/script>") (json_str raw_text).

(** ** The manifest *)

From Stdlib Require Import Sorting.Sorted Sorting.Permutation.

(** The key that orders the manifest, as a string. *)
Definition exported_of (ke : json * json) : string := as_str (fst ke).

(** Inserts an entry into a list in descending order of the keys, before
    the entries of the same key. *)
Fixpoint insert_desc (x : json * json) (l : list (json * json))
  : list (json * json) :=
  match l with
  | [] => [x]
  | y :: r =>
      if String.leb (exported_of y) (exported_of x) then x :: y :: r
      else y :: insert_desc x r
  end.

(** The stable sort in descending order of string keys. *)
Definition sorted_desc (l : list (json * json)) : list (json * json) :=
  fold_right insert_desc [] l.

Fixpoint mapM {A B : Type} (f : A -> py B) (l : list A) : py (list B) :=
  match l with
  | [] => Return []
  | x :: r => y <- f x ;; ys <- mapM f r ;; Return (y :: ys)
  end.

(** The entry that [update_manifest] appends. *)
Definition manifest_entry (rel_path project_name session_name branch : string)
           (turn_count size : Z) (now : string) : json :=
  JObj [("path", JStr rel_path); ("project", JStr project_name);
        ("session", JStr session_name); ("branch", JStr branch);
        ("turns", JInt turn_count); ("size", JInt size);
        ("exported", JStr now)].

Section Manifest.

(** [list.sort(key=..., reverse=True)] of the standard library, given the
    entries with their keys.  What it does on keys of several types is
    left open. *)
Variable py_sort_desc : list (json * json) -> py (list json).

(** [update_manifest], from the manifest read from the file to the one
    written back; [rel_path], [size] and [now] are what [os.path] and
    [datetime] give. *)
Definition update_manifest (manifest : json)
           (rel_path project_name session_name branch : string)
           (turn_count size : Z) (now : string) : py (list json) :=
  entries <- iterate manifest ;;
  kept <- mapM (fun e => p <- dget e "path" JNull ;;
                         Return (negb (eq_str p rel_path), e))
               entries ;;
  let manifest :=
    (map snd (filter fst kept)
       ++ [manifest_entry rel_path project_name session_name branch
                          turn_count size now])%list in
  keyed <- mapM (fun e => k <- dget e "exported" (JStr "") ;; Return (k, e))
                manifest ;;
  py_sort_desc keyed.

End Manifest.

(** The sort on string keys: the stable sort in descending order. *)
Definition sorts_strings (py_sort_desc : list (json * json) -> py (list json))
  : Prop :=
  forall l, forallb (fun ke => is_str (fst ke)) l = true ->
            py_sort_desc l = Return (map snd (sorted_desc l)).

(** A manifest as [update_manifest] writes it: mappings whose export time
    is a string. *)
Definition wf_manifest (entries : list json) : bool :=
  forallb (fun e => is_dict e && is_str (field e "exported" (JStr ""))) entries.

Definition has_path (rel_path : string) (e : json) : bool :=
  eq_str (field e "path" JNull) rel_path.

(** The entries are in descending order of their export time. *)
Definition descending (entries : list json) : Prop :=
  Sorted (fun a b =>
            String.leb (as_str (field b "exported" (JStr "")))
                       (as_str (field a "exported" (JStr ""))) = true)
         entries.

(** A sort for the examples: the stable sort whatever the keys. *)
Definition sample_sort (l : list (json * json)) : py (list json) :=
  Return (map snd (sorted_desc l)).

Definition sample_manifest : list json :=
  [ manifest_entry "proj/b.html" "proj" "b" "main" 4 2048 "2025-01-03T09:00:00";
    manifest_entry "proj/a.html" "proj" "a" "main" 2 1024 "2025-01-01T09:00:00" ].


(** * Proofs *)

(** * The monad and the loops *)

Lemma bind_Return {A B : Type} (c : py A) (k : A -> py B) (b : B) :
  bind c k = Return b -> exists a, c = Return a /\ k a = Return b.
Proof.
  destruct c as [a|e]; simpl; intros H; [eauto | discriminate].
Qed.

(** Splits a successful sequence of binds into its steps. *)
Ltac inv_bind H :=
  let a := fresh "v" in
  let H1 := fresh "E" in
  apply bind_Return in H; destruct H as (a & H1 & H).

Lemma foldM_app {A B : Type} (f : A -> B -> py A) (l1 l2 : list B) (a : A) :
  foldM f a (l1 ++ l2) = a' <- foldM f a l1 ;; foldM f a' l2.
Proof.
  revert a; induction l1 as [|x l1 IH]; intros a; simpl; [reflexivity|].
  destruct (f a x) as [a'|e]; simpl; [apply IH | reflexivity].
Qed.

Lemma foldM_invariant {A B : Type} (f : A -> B -> py A) (P : A -> Prop) :
  (forall a x a', P a -> f a x = Return a' -> P a') ->
  forall l a a', P a -> foldM f a l = Return a' -> P a'.
Proof.
  intros Hstep l; induction l as [|x l IH]; intros a a' Ha H; simpl in H.
  - now inversion H; subst.
  - inv_bind H. eapply IH; [eapply Hstep|]; eauto.
Qed.

(** A step that does nothing can be dropped from the loop. *)
Lemma foldM_skip {A B : Type} (f : A -> B -> py A) (l1 l2 : list B) (x : B) (a : A) :
  (forall a', f a' x = Return a') ->
  foldM f a (l1 ++ x :: l2) = foldM f a (l1 ++ l2).
Proof.
  intros Hx. rewrite !foldM_app. destruct (foldM f a l1) as [a'|e]; simpl; [|reflexivity].
  now rewrite Hx.
Qed.

(** * Strings *)

Lemma rstrip_app_nl (s : string) : rstrip (s ++ nl) = rstrip s.
Proof.
  induction s as [|c s IH]; simpl; [reflexivity|]. now rewrite IH.
Qed.

Lemma strip_app_nl (s : string) : strip (s ++ nl) = strip s.
Proof. unfold strip. now rewrite rstrip_app_nl. Qed.

Lemma strip_empty_inv (s : string) : nonempty (strip s) = true -> nonempty s = true.
Proof. destruct s; [discriminate | reflexivity]. Qed.

Lemma append_assoc (a b c : string) : (a ++ b) ++ c = a ++ b ++ c.
Proof. induction a as [|x a IH]; simpl; [reflexivity | now rewrite IH]. Qed.

Lemma append_nil_r (a : string) : a ++ "" = a.
Proof. induction a as [|x a IH]; simpl; [reflexivity | now rewrite IH]. Qed.

Lemma length_append (a b : string) :
  String.length (a ++ b) = String.length a + String.length b.
Proof. induction a as [|x a IH]; simpl; [reflexivity | now rewrite IH]. Qed.

Lemma drop_prefix_app (p s : string) : drop_prefix p (p ++ s) = Some s.
Proof.
  induction p as [|a p IH]; simpl; [reflexivity|]. now rewrite Ascii.eqb_refl.
Qed.

Lemma drop_prefix_sound (p s r : string) : drop_prefix p s = Some r -> s = p ++ r.
Proof.
  revert s; induction p as [|a p IH]; intros s H; simpl in *.
  - now inversion H.
  - destruct s as [|b s]; [discriminate|].
    destruct (Ascii.eqb a b) eqn:E; [|discriminate].
    apply Ascii.eqb_eq in E; subst. now rewrite (IH _ H).
Qed.

Lemma find_sub_sound (p s a b : string) :
  find_sub p s = Some (a, b) -> s = a ++ p ++ b.
Proof.
  revert a b; induction s as [|c s IH]; intros a b H.
  - simpl in H. destruct (drop_prefix p "") eqn:E; [|discriminate].
    inversion H; subst. simpl. now apply drop_prefix_sound.
  - cbn [find_sub] in H. destruct (drop_prefix p (String c s)) eqn:E.
    + inversion H; subst. simpl. now apply drop_prefix_sound.
    + destruct (find_sub p s) as [[a' b']|] eqn:F; [|discriminate].
      inversion H; subst. simpl. now rewrite (IH _ _ eq_refl).
Qed.

Lemma find_sub_prefix (p s : string) : find_sub p (p ++ s) = Some ("", s).
Proof.
  destruct (p ++ s) eqn:E; cbn [find_sub]; rewrite <- E, drop_prefix_app; reflexivity.
Qed.

(** * Dictionaries keyed by a correlation id *)

Ltac key_cases :=
  repeat match goal with
    | b : bool |- _ => destruct b
    | H : context [(?x =? ?y)%Z] |- _ => destruct (Z.eqb_spec x y)
    | |- context [(?x =? ?y)%Z] => destruct (Z.eqb_spec x y)
    | H : context [String.eqb ?x ?y] |- _ => destruct (String.eqb_spec x y)
    | |- context [String.eqb ?x ?y] => destruct (String.eqb_spec x y)
    end;
  simpl in *; try reflexivity; try discriminate; try congruence; try lia.

Lemma key_eqb_sym (a b : json) : key_eqb a b = key_eqb b a.
Proof. destruct a, b; simpl; try reflexivity; key_cases. Qed.

Lemma key_eqb_trans (a b c : json) :
  key_eqb a b = true -> key_eqb c a = key_eqb c b.
Proof.
  intros H; destruct a, b; simpl in H; try discriminate;
    destruct c; simpl; try reflexivity; key_cases.
Qed.

Lemma key_eqb_truthy (a b : json) : key_eqb a b = true -> truthy a = truthy b.
Proof. destruct a, b; simpl; intros H; try discriminate; key_cases. Qed.

Lemma key_eqb_hashable (a b : json) : key_eqb a b = true -> hashable b = true.
Proof. destruct a, b; simpl; intros H; try discriminate; reflexivity. Qed.

Lemma lookup_update {V : Type} (k k' : json) (v : V) (m : dict V) :
  lookup k (update k' v m) = if key_eqb k k' then Some v else lookup k m.
Proof.
  induction m as [|[k'' v''] m IH]; simpl; [reflexivity|].
  destruct (key_eqb k' k'') eqn:E; simpl.
  - rewrite (key_eqb_trans _ _ k E). now destruct (key_eqb k k'').
  - rewrite IH. destruct (key_eqb k k'') eqn:F; [|reflexivity].
    destruct (key_eqb k k') eqn:G; [|reflexivity].
    rewrite <- (key_eqb_trans _ _ k' F), key_eqb_sym in E. congruence.
Qed.

(** * The result correlator *)

Lemma dget_field (kvs : list (string * json)) (k : string) (default : json) :
  dget (JObj kvs) k default = Return (field (JObj kvs) k default).
Proof. unfold dget, field. now destruct (assoc k kvs). Qed.

Lemma eq_str_excl (v : json) (t : string) {s : string} :
  eq_str v s = true -> s <> t -> eq_str v t = false.
Proof.
  destruct v; simpl; try discriminate. intros H Hne.
  apply String.eqb_eq in H; subst. now apply String.eqb_neq.
Qed.

(** What one step of [for rc in result_content] adds. *)
Lemma result_step_adds (rc : json) (t t' : string) (i i' : list string) :
  result_step (t, i) rc = Return (t', i') ->
  t' = t ++ (if is_block "text" rc
             then as_str (field rc "text" (JStr "")) ++ nl else "")
  /\ i' = (i ++ (if is_base64_image rc
                 then [uri_of (field rc "source" (JObj []))] else []))%list.
Proof.
  unfold result_step, is_base64_image, is_block.
  destruct rc as [| | | | |kvs]; simpl is_dict; cbn [andb];
    try (intros H; inversion H; subst; now rewrite append_nil_r, app_nil_r).
  rewrite dget_field; cbn [bind].
  destruct (eq_str (field (JObj kvs) "type" JNull) "text") eqn:Etext.
  - rewrite (eq_str_excl _ "image" Etext) by discriminate.
    rewrite dget_field; cbn [bind andb].
    destruct (field (JObj kvs) "text" (JStr "")); cbn [add_nl bind as_str];
      try discriminate.
    intros H; inversion H; subst. now rewrite app_nil_r.
  - destruct (eq_str (field (JObj kvs) "type" JNull) "image") eqn:Eimg.
    2:{ intros H; inversion H; subst. now rewrite append_nil_r, app_nil_r. }
    rewrite dget_field; cbn [bind andb].
    destruct (field (JObj kvs) "source" (JObj [])) as [| | | | |src];
      try discriminate.
    rewrite dget_field; cbn [bind].
    destruct (eq_str (field (JObj src) "type" JNull) "base64").
    + unfold data_uri, uri_of. rewrite !dget_field; cbn [bind].
      intros H; inversion H; subst. now rewrite append_nil_r.
    + intros H; inversion H; subst. now rewrite append_nil_r, app_nil_r.
Qed.

(** The text gathered by [for rc in result_content]: each text sub-block
    followed by a newline; the images: one data URI per base64 image. *)
Lemma result_step_fold (rcs : list json) (t0 : string) (i0 : list string)
      (t : string) (i : list string) :
  foldM result_step (t0, i0) rcs = Return (t, i) ->
  t = t0 ++ fold_right (fun s acc => s ++ nl ++ acc) "" (text_parts (JArr rcs))
  /\ i = (i0 ++ image_parts (JArr rcs))%list.
Proof.
  revert t0 i0; induction rcs as [|rc rcs IH]; intros t0 i0 H; simpl in H.
  - inversion H; subst. cbn. now rewrite append_nil_r, app_nil_r.
  - inv_bind H. destruct v as [t1 i1].
    apply result_step_adds in E. destruct E as [-> ->].
    apply IH in H. destruct H as [-> ->]. clear IH.
    unfold text_parts, image_parts. simpl filter.
    destruct (is_block "text" rc), (is_base64_image rc); simpl map; simpl fold_right;
      rewrite ?append_assoc, ?append_nil_r, <- ?app_assoc, ?app_nil_r; auto.
Qed.

Lemma strip_lines (l : list string) :
  strip (fold_right (fun s acc => s ++ nl ++ acc) "" l) = strip (join nl l).
Proof.
  assert (H : forall l, l <> [] ->
            fold_right (fun s acc => s ++ nl ++ acc) "" l = join nl l ++ nl).
  { clear l. induction l as [|x l IH]; intros Hne; [congruence|].
    destruct l as [|y l].
    - simpl. reflexivity.
    - change (x ++ nl ++ fold_right (fun s acc => s ++ nl ++ acc) "" (y :: l)
              = (x ++ nl ++ join nl (y :: l)) ++ nl).
      rewrite IH by discriminate. now rewrite !append_assoc. }
  destruct l as [|x l]; [reflexivity|].
  rewrite H by discriminate. apply strip_app_nl.
Qed.

(** The first pass computes, for one block's content, the result text and
    images of the specification. *)
Lemma result_of_content_spec (b : json) (t : string) (i : list string) :
  result_of_content (field b "content" (JStr "")) = Return (t, i) ->
  strip t = spec_result_text b /\ i = spec_result_images b.
Proof.
  unfold result_of_content, spec_result_text, spec_result_images.
  destruct (field b "content" (JStr "")) as [| | |s|rcs|kvs]; intros H;
    try (inversion H; subst; split; reflexivity).
  apply result_step_fold in H. destruct H as [-> ->].
  simpl append. now rewrite strip_lines.
Qed.

Lemma last_such_app {A : Type} (p : A -> bool) (l1 l2 : list A) :
  last_such p (l1 ++ l2) =
    match last_such p l2 with
    | Some y => Some y
    | None => last_such p l1
    end.
Proof.
  unfold last_such. rewrite rev_app_distr.
  induction (rev l2) as [|x r IH]; simpl; [reflexivity|].
  now destruct (p x).
Qed.

Lemma last_such_one {A : Type} (p : A -> bool) (x : A) :
  last_such p [x] = if p x then Some x else None.
Proof. reflexivity. Qed.

Lemma leaves_refl (st : maps) : leaves st st [].
Proof. intros k; split; reflexivity. Qed.

Lemma leaves_trans (st1 st2 st3 : maps) (l1 l2 : list json) :
  leaves st1 st2 l1 -> leaves st2 st3 l2 -> leaves st1 st3 (l1 ++ l2).
Proof.
  intros H1 H2 k. destruct (H1 k) as [A1 B1], (H2 k) as [A2 B2].
  rewrite !last_such_app, A2, B2, A1, B1.
  split.
  - now destruct (last_such (result_for k) l2).
  - now destruct (last_such (fun b => result_for k b && carries_images b) l2).
Qed.

Lemma setitem_Return {V : Type} (m m' : dict V) (k : json) (v : V) :
  setitem m k v = Return m' -> hashable k = true /\ m' = update k v m.
Proof. unfold setitem. destruct (hashable k); intros H; now inversion H. Qed.

(** One [tool_result] block overwrites the entry of its id. *)
Lemma collect_block_leaves (st st' : maps) (b : json) :
  collect_block st b = Return st' ->
  leaves st st' (if is_block "tool_result" b then [b] else []).
Proof.
  destruct st as [m im]. unfold collect_block, is_block.
  destruct b as [| | | | |kvs]; simpl is_dict; cbn [andb];
    try (intros H; inversion H; subst; apply leaves_refl).
  rewrite dget_field; cbn [bind].
  destruct (eq_str (field (JObj kvs) "type" JNull) "tool_result");
    [|intros H; inversion H; subst; apply leaves_refl].
  rewrite !dget_field; cbn [bind]. intros H. inv_bind H. destruct v as [t i].
  apply result_of_content_spec in E. destruct E as [Et Ei].
  fold (block_id (JObj kvs)) in H.
  intros k. rewrite !last_such_one. unfold carries_images, result_for.
  remember (block_id (JObj kvs)) as bid eqn:Hbid. clear Hbid.
  destruct (truthy bid); cbn [andb].
  2:{ inversion H; subst. split; reflexivity. }
  inv_bind H. apply setitem_Return in E. destruct E as [_ ->].
  rewrite Et in H. rewrite <- Ei at 1.
  destruct i as [|u i]; cbn [is_nil negb andb].
  - inversion H; subst st'; cbn [fst snd]. rewrite lookup_update, andb_false_r.
    now destruct (key_eqb k bid).
  - inv_bind H. apply setitem_Return in E. destruct E as [_ ->].
    inversion H; subst st'; cbn [fst snd]. rewrite !lookup_update, andb_true_r.
    destruct (key_eqb k bid); [|split; reflexivity]. now rewrite Ei.
Qed.

Lemma collect_blocks_leaves (blocks : list json) (st st' : maps) :
  foldM collect_block st blocks = Return st' ->
  leaves st st' (filter (is_block "tool_result") blocks).
Proof.
  revert st; induction blocks as [|b blocks IH]; intros st H; simpl in H.
  - inversion H; subst. apply leaves_refl.
  - inv_bind H. apply collect_block_leaves in E. apply IH in H.
    pose proof (leaves_trans _ _ _ _ _ E H) as L. simpl filter.
    now destruct (is_block "tool_result" b).
Qed.

Lemma subscript_Return (d : json) (k : string) (v : json) :
  subscript d k = Return v ->
  exists kvs, d = JObj kvs /\ assoc k kvs = Some v.
Proof.
  destruct d; simpl; try discriminate.
  destruct (assoc k kvs) eqn:E; intros H; inversion H; subst; eauto.
Qed.

Lemma dget_Return (d : json) (k : string) (default v : json) :
  dget d k default = Return v ->
  exists kvs, d = JObj kvs /\ v = field d k default.
Proof.
  destruct d; simpl; try discriminate.
  destruct (assoc k kvs) eqn:E; intros H; inversion H; subst; eauto.
Qed.

Lemma collect_record_leaves (st st' : maps) (d : json) :
  collect_record st d = Return st' -> leaves st st' (tool_results [d]).
Proof.
  unfold collect_record, tool_results. simpl flat_map. rewrite app_nil_r.
  intros H. inv_bind H. apply subscript_Return in E.
  destruct E as (kvs & -> & Ety).
  assert (field (JObj kvs) "type" JNull = v) as -> by (unfold field; now rewrite Ety).
  destruct (eq_str v "user"); cbn [negb] in H;
    [|inversion H; subst; apply leaves_refl].
  rewrite dget_field in H; cbn [bind] in H. inv_bind H.
  apply dget_Return in E. destruct E as (msg & Emsg & ->).
  unfold content_blocks. rewrite Emsg in *.
  destruct (field (JObj msg) "content" (JArr [])) as [| | |s|l|o];
    cbn [is_str iterate bind] in H; try discriminate.
  - inversion H; subst. apply leaves_refl.
  - now apply collect_blocks_leaves.
  - apply collect_blocks_leaves in H.
    replace (filter (is_block "tool_result") (map (fun kv => JStr (fst kv)) o))
      with (@nil json) in H; [exact H|].
    clear. induction o as [|kv o IH]; simpl; auto.
Qed.

(** The dictionaries the first pass builds from a log. *)
Lemma collect_results_leaves (all_records : list json) (st st' : maps) :
  foldM collect_record st all_records = Return st' ->
  leaves st st' (tool_results all_records).
Proof.
  revert st; induction all_records as [|d rs IH]; intros st H; simpl in H.
  - inversion H; subst. apply leaves_refl.
  - inv_bind H. apply collect_record_leaves in E. apply IH in H.
    change (d :: rs) with ([d] ++ rs)%list. unfold tool_results in *.
    rewrite flat_map_app. eapply leaves_trans; eauto.
Qed.

(** * The turn reconstructor *)

Lemma getitem_Return {V : Type} (m : dict V) (k : json) (default v : V) :
  getitem m k default = Return v ->
  hashable k = true
  /\ v = match lookup k m with Some x => x | None => default end.
Proof. unfold getitem. destruct (hashable k); intros H; now inversion H. Qed.

Lemma tool_use_block_resolved (st : maps) (block : json) (e : tool_entry) :
  tool_use_block st block = Return e ->
  resolved st e /\ id e = field block "id" (JStr "").
Proof.
  destruct st as [m im]. unfold tool_use_block. intros H.
  inv_bind H. apply dget_Return in E. destruct E as (kvs & -> & ->).
  rewrite !dget_field in H; cbn [bind] in H.
  inv_bind H. apply getitem_Return in E. destruct E as [_ ->].
  inv_bind H. apply getitem_Return in E. destruct E as [_ ->].
  inversion H; subst. split; [split|]; reflexivity.
Qed.

Lemma text_block_nonempty (r block : json) (new : list string) :
  text_block r block = Return new -> Forall (fun s => nonempty s = true) new.
Proof.
  unfold text_block. intros H.
  inv_bind H. inv_bind H.
  destruct (v0 && eq_str r "user").
  - inv_bind H. destruct (nonempty (strip v1)) eqn:N; inversion H; subst; auto.
  - inv_bind H. destruct v; cbn in E1; try discriminate. inversion E1; subst.
    destruct (nonempty (strip s)) eqn:N; inversion H; subst; auto.
    constructor; auto. cbn. now apply strip_empty_inv.
Qed.

Lemma turn_block_inv (st : maps) (r : json) (t t' : turn) (block : json) :
  turn_inv st r t -> turn_block st t block = Return t' -> turn_inv st r t'.
Proof.
  intros (Hr & Ht & Hu). unfold turn_block.
  destruct block as [| | | | |kvs];
    try (intros H; inversion H; subst; repeat split; assumption).
  rewrite dget_field; cbn [bind].
  destruct (eq_str _ "text").
  { intros H. inv_bind H. inversion H; subst; cbn. repeat split; auto.
    apply Forall_app; split; auto. eapply text_block_nonempty; eauto. }
  destruct (eq_str _ "tool_use").
  { intros H. inv_bind H. inversion H; subst; cbn. repeat split; auto.
    apply Forall_app; split; auto. constructor; auto.
    now apply tool_use_block_resolved in E. }
  destruct (eq_str _ "image").
  { intros H. inv_bind H. inversion H; subst; cbn. repeat split; auto. }
  intros H; inversion H; subst; repeat split; assumption.
Qed.

Lemma build_turn_inv (st : maps) (d : json) (t : turn) :
  build_turn st d = Return t ->
  role t = field (field d "message" (JObj [])) "role" (field d "type" JNull)
  /\ Forall (fun s => nonempty s = true) (texts t)
  /\ Forall (resolved st) (tool_uses t).
Proof.
  unfold build_turn. intros H.
  inv_bind H. apply subscript_Return in E. destruct E as (kvs & -> & Ety).
  rewrite dget_field in H; cbn [bind] in H.
  inv_bind H. apply dget_Return in E. destruct E as (msg & Emsg & ->).
  inv_bind H. inv_bind H. inv_bind H.
  assert (field (JObj kvs) "type" JNull = v) as -> by (unfold field; now rewrite Ety).
  eapply foldM_invariant with (P := turn_inv st _) in H.
  - exact H.
  - intros a x a' Ha Hx. eapply turn_block_inv; eauto.
  - repeat split; cbn; auto.
Qed.

(** With every text of a built turn non-empty, the guard of the code and
    the visibility rule agree. *)
Lemma keep_visible (t : turn) :
  Forall (fun s => nonempty s = true) (texts t) -> keep t = visible t.
Proof.
  intros Ht. unfold keep, visible.
  assert (negb (is_nil (texts t)) = existsb nonempty (texts t)) as ->.
  { destruct (texts t) as [|s l]; [reflexivity|]. inversion Ht; subst.
    simpl. now rewrite H1. }
  assert (forall A (l : list A), negb (is_nil l) = (0 <? List.length l)%nat) as E
    by (now intros A [|x l]).
  now rewrite !E.
Qed.

(** The second pass keeps, in file order, the built turns that pass the
    guard. *)
Lemma build_turns_filter (st : maps) (all_records : list json)
      (acc messages : list turn) :
  foldM (turn_record st) acc all_records = Return messages ->
  exists built,
    Forall2 (fun d t => build_turn st d = Return t)
            (filter conversational all_records) built
    /\ messages = (acc ++ filter keep built)%list.
Proof.
  revert acc; induction all_records as [|d rs IH]; intros acc H; simpl in H.
  - inversion H; subst. exists []. split; [constructor | now rewrite app_nil_r].
  - inv_bind H. unfold turn_record in E. inv_bind E.
    apply subscript_Return in E0. destruct E0 as (kvs & -> & Ety).
    simpl filter. unfold conversational at 1.
    assert (field (JObj kvs) "type" JNull = v0) as -> by (unfold field; now rewrite Ety).
    destruct (eq_str v0 "user" || eq_str v0 "assistant"); cbn [negb] in E.
    + inv_bind E. destruct (IH _ H) as (built & HF & ->).
      exists (v1 :: built). split; [constructor; assumption|].
      simpl filter. destruct (keep v1); inversion E; subst; auto.
      now rewrite <- app_assoc.
    + inversion E; subst. apply IH in H. exact H.
Qed.

(** * Failure of the first pass does not depend on the dictionaries *)

Lemma foldM_returns {A B : Type} (f : A -> B -> py A) :
  (forall a a' x, returns (f a x) -> returns (f a' x)) ->
  forall l a a0, returns (foldM f a l) <-> Forall (fun x => returns (f a0 x)) l.
Proof.
  intros Hf l; induction l as [|x l IH]; intros a a0; simpl.
  - split; [constructor | intros _; now exists a].
  - split.
    + intros [r H]. inv_bind H. constructor.
      * apply (Hf a). now exists v.
      * apply (IH v). now exists r.
    + intros H. inversion H as [|? ? Hx Hl]; subst.
      destruct (Hf a0 a x Hx) as [v Hv]. rewrite Hv; cbn [bind].
      now apply (IH v a0).
Qed.

Lemma collect_block_returns (st st' : maps) (b : json) :
  returns (collect_block st b) -> returns (collect_block st' b).
Proof.
  destruct st as [m im], st' as [m' im']. unfold collect_block.
  destruct b as [| | | | |kvs]; try (intros _; eexists; reflexivity).
  rewrite dget_field; cbn [bind].
  destruct (eq_str _ "tool_result"); [|intros _; eexists; reflexivity].
  rewrite !dget_field; cbn [bind].
  destruct (result_of_content _) as [[t i]|e]; cbn [bind];
    [|intros [a H]; discriminate].
  destruct (truthy _); [|intros _; eexists; reflexivity].
  unfold setitem. destruct (hashable _); cbn [bind];
    [|intros [a H]; discriminate].
  intros _. destruct i; eexists; reflexivity.
Qed.

Lemma collect_record_returns (st st' : maps) (d : json) :
  returns (collect_record st d) -> returns (collect_record st' d).
Proof.
  unfold collect_record.
  destruct (subscript d "type") as [ty|e]; cbn [bind]; [|intros [a H]; discriminate].
  destruct (negb (eq_str ty "user")); [intros _; eexists; reflexivity|].
  destruct (dget d "message" (JObj [])) as [msg|e]; cbn [bind];
    [|intros [a H]; discriminate].
  destruct (dget msg "content" (JArr [])) as [content|e]; cbn [bind];
    [|intros [a H]; discriminate].
  destruct (is_str content); [intros _; eexists; reflexivity|].
  destruct (iterate content) as [blocks|e]; cbn [bind]; [|intros [a H]; discriminate].
  intros H. apply (foldM_returns _ collect_block_returns blocks st st) in H.
  now apply (foldM_returns _ collect_block_returns blocks st' st).
Qed.

Lemma collect_results_returns (all_records : list json) :
  returns (collect_results all_records)
  <-> Forall (fun d => returns (collect_results [d])) all_records.
Proof.
  unfold collect_results.
  rewrite (foldM_returns _ collect_record_returns all_records ([], []) ([], [])).
  assert (E : forall d, returns (collect_record ([], []) d)
                     <-> returns (foldM collect_record ([], []) [d])).
  { intros d. simpl.
    destruct (collect_record ([], []) d) as [st|e]; cbn [bind]; [|reflexivity].
    split; intros _; eexists; reflexivity. }
  rewrite !Forall_forall. split; intros H d Hd; apply E; auto.
Qed.

(** * Claims on turn reconstruction *)

(** C1. For a correlation id that appears in a [tool_use] block and in a
    [tool_result] block of the log, the reconstructed tool invocation has
    as result text the text sub-blocks of that result (the last one in file
    order, were the id reused), joined with newline and trimmed; a content
    that is a single string gives that string, trimmed. *)
Theorem correlated_result_text
        (all_records : list json) (messages : list turn)
        (t : turn) (e : tool_entry) (b : json) :
  parse_messages all_records = Return messages ->
  In t messages -> In e (tool_uses t) ->
  last_such (result_for (id e)) (tool_results all_records) = Some b ->
  result e = spec_result_text b
  /\ (forall rcs, field b "content" (JStr "") = JArr rcs ->
                  result e = strip (join nl (text_parts (JArr rcs))))
  /\ (forall s, field b "content" (JStr "") = JStr s -> result e = strip s).
Proof.
  unfold parse_messages. intros H Ht He Hb.
  inv_bind H. apply collect_results_leaves in E.
  apply build_turns_filter in H. destruct H as (built & HF & ->).
  simpl in Ht. apply filter_In in Ht. destruct Ht as [Ht _].
  assert (R : resolved v e).
  { clear - HF Ht He. induction HF as [|d t' ds ts Hd _ IH]; [contradiction|].
    destruct Ht as [->|Ht]; [|auto].
    apply build_turn_inv in Hd. destruct Hd as (_ & _ & Hu).
    rewrite Forall_forall in Hu. auto. }
  destruct R as [R _]. destruct (E (id e)) as [L _].
  rewrite Hb in L. rewrite L in R.
  split; [exact R|]. unfold spec_result_text in R.
  split; intros x Hx; now rewrite Hx in R.
Qed.

Lemma correlated_result_text_witness :
  result sample_entry = spec_result_text sample_result
  /\ (forall rcs, field sample_result "content" (JStr "") = JArr rcs ->
                  result sample_entry = strip (join nl (text_parts (JArr rcs))))
  /\ (forall s, field sample_result "content" (JStr "") = JStr s ->
                result sample_entry = strip s).
Proof.
  apply (correlated_result_text sample_log sample_turns
           {| role := JStr "assistant"; timestamp := JStr "2025-01-01T10:00:00Z";
              texts := ["Running ls."]; tool_uses := [sample_entry];
              images := [] |}).
  - vm_compute. reflexivity.
  - simpl. auto.
  - simpl. auto.
  - vm_compute. reflexivity.
Defined.

(** C2, as the code has it.  When a correlation id appears in several
    [tool_result] blocks, the mapping holds under it the text of the last of
    them in file order (each assignment replaces the text before it) and the
    images of the last of them that carries an image; and whether the first
    pass returns is decided record by record, whatever ids came before. *)
Theorem duplicate_results_last_wins
        (all_records : list json) (st : maps) (k : json) :
  collect_results all_records = Return st ->
  lookup k (fst st) =
    option_map spec_result_text
               (last_such (result_for k) (tool_results all_records))
  /\ lookup k (snd st) =
    option_map spec_result_images
               (last_such (fun b => result_for k b && carries_images b)
                          (tool_results all_records))
  /\ (forall more,
        returns (collect_results (all_records ++ more))
        <-> Forall (fun d => returns (collect_results [d])) more).
Proof.
  intros H. pose proof (collect_results_leaves _ _ _ H k) as [A B].
  cbn [fst snd lookup] in A, B. rewrite A, B.
  split; [now destruct (last_such (result_for k) _)|].
  split; [now destruct (last_such (fun b => result_for k b && carries_images b) _)|].
  intros more. rewrite collect_results_returns, Forall_app.
  assert (R : returns (collect_results all_records)) by now exists st.
  apply collect_results_returns in R. tauto.
Qed.

Lemma duplicate_results_last_wins_witness :
  lookup (JStr "k") [(JStr "k", "second")] =
    option_map spec_result_text
               (last_such (result_for (JStr "k")) (tool_results duplicate_log))
  /\ lookup (JStr "k") (@nil (json * list string)) =
    option_map spec_result_images
               (last_such (fun b => result_for (JStr "k") b && carries_images b)
                          (tool_results duplicate_log))
  /\ (forall more,
        returns (collect_results (duplicate_log ++ more))
        <-> Forall (fun d => returns (collect_results [d])) more).
Proof.
  apply (duplicate_results_last_wins duplicate_log
           ([(JStr "k", "second")], []) (JStr "k")).
  vm_compute. reflexivity.
Defined.

(** C2 as stated fails: with the texts "first" and "second" under one id,
    the mapping holds "second" alone, not their concatenation. *)
Lemma duplicate_results_not_concatenated :
  collect_results duplicate_log = Return ([(JStr "k", "second")], [])
  /\ contains "first" "second" = false.
Proof. split; vm_compute; reflexivity. Qed.

(** C3. Every record of type user or assistant yields a built turn, and
    the output is, in file order, the built turns that satisfy the
    visibility rule; an assistant turn with one tool invocation, no text
    and no image is kept. *)
Theorem visible_turns_kept (all_records : list json) (messages : list turn) :
  parse_messages all_records = Return messages ->
  exists st built,
    collect_results all_records = Return st
    /\ Forall2 (fun d t => build_turn st d = Return t)
               (filter conversational all_records) built
    /\ messages = filter visible built
    /\ (forall t, In t built -> (In t messages <-> visible t = true))
    /\ (forall t e, In t built -> eq_str (role t) "assistant" = true ->
                    texts t = [] -> tool_uses t = [e] -> images t = [] ->
                    In t messages).
Proof.
  unfold parse_messages. intros H. inv_bind H.
  apply build_turns_filter in H. destruct H as (built & HF & ->).
  exists v, built. split; [assumption|]. split; [assumption|].
  assert (K : filter keep built = filter visible built).
  { apply filter_ext_in. intros t Ht. apply keep_visible.
    clear - HF Ht. induction HF as [|d t' ds ts Hd _ IH]; [contradiction|].
    destruct Ht as [->|Ht]; [|auto]. now apply build_turn_inv in Hd. }
  simpl. rewrite K. split; [reflexivity|]. split.
  - intros t Ht. rewrite filter_In. tauto.
  - intros t e Ht Hr Htx Hu Hi. apply filter_In. split; [assumption|].
    unfold visible.
    rewrite (eq_str_excl _ "user" Hr), Hr, Htx, Hu, Hi by discriminate.
    reflexivity.
Qed.

Lemma visible_turns_kept_witness :
  exists st built,
    collect_results sample_log = Return st
    /\ Forall2 (fun d t => build_turn st d = Return t)
               (filter conversational sample_log) built
    /\ sample_turns = filter visible built
    /\ (forall t, In t built -> (In t sample_turns <-> visible t = true))
    /\ (forall t e, In t built -> eq_str (role t) "assistant" = true ->
                    texts t = [] -> tool_uses t = [e] -> images t = [] ->
                    In t sample_turns).
Proof.
  apply (visible_turns_kept sample_log sample_turns).
  vm_compute. reflexivity.
Defined.

(** * System annotations *)

Lemma find_sub_length (p s a b : string) :
  find_sub p s = Some (a, b) ->
  String.length s = String.length a + String.length p + String.length b.
Proof.
  intros H. apply find_sub_sound in H. subst.
  rewrite !length_append. lia.
Qed.

Lemma sub_reminders_fuel (f1 : nat) :
  forall (f2 : nat) (s : string),
    String.length s <= f1 -> String.length s <= f2 ->
    sub_reminders f1 s = sub_reminders f2 s.
Proof.
  induction f1 as [|f1 IH]; intros f2 s H1 H2.
  - destruct s; [|simpl in H1; lia]. now destruct f2.
  - destruct f2 as [|f2].
    + destruct s; [reflexivity | simpl in H2; lia].
    + simpl. destruct (find_sub open_marker s) as [[before r]|] eqn:Eo; [|reflexivity].
      destruct (find_sub close_marker r) as [[body rest]|] eqn:Ec; [|reflexivity].
      apply find_sub_length in Eo, Ec.
      change (String.length open_marker) with 17 in Eo.
      f_equal. apply IH; lia.
Qed.

(** The substitution, free of its fuel: the first span, from an opening
    marker to the nearest closing marker, is removed with its markers, and
    so are the spans of what follows. *)
Lemma strip_reminders_eq (s : string) :
  strip_reminders s =
    match find_sub open_marker s with
    | None => s
    | Some (before, r) =>
        match find_sub close_marker r with
        | None => s
        | Some (_, rest) => before ++ strip_reminders rest
        end
    end.
Proof.
  unfold strip_reminders. destruct (String.length s) eqn:L.
  - destruct s; [reflexivity | discriminate].
  - simpl. destruct (find_sub open_marker s) as [[before r]|] eqn:Eo; [|reflexivity].
    destruct (find_sub close_marker r) as [[body rest]|] eqn:Ec; [|reflexivity].
    apply find_sub_length in Eo, Ec.
    change (String.length open_marker) with 17 in Eo.
    f_equal. apply sub_reminders_fuel; lia.
Qed.

Lemma strip_reminders_enclosed (body : string) :
  find_sub close_marker (body ++ close_marker) = Some (body, "") ->
  strip_reminders (open_marker ++ body ++ close_marker) = "".
Proof.
  intros H. rewrite strip_reminders_eq, find_sub_prefix, H. reflexivity.
Qed.

Lemma text_block_user_marked (s : string) :
  contains open_marker s = true ->
  text_block (JStr "user") (text_blk s) =
    Return (if nonempty (strip (strip_reminders s))
            then [strip (strip_reminders s)] else []).
Proof.
  intros H. unfold text_block, text_blk. rewrite dget_field.
  cbn [bind field assoc String.eqb Ascii.eqb Bool.eqb py_in].
  rewrite H. cbn [andb eq_str String.eqb Ascii.eqb Bool.eqb re_sub_reminders bind].
  now destruct (nonempty _).
Qed.

Lemma field_not_default (d : json) (k : string) (d1 d2 v : json) :
  field d k d1 = v -> v <> d1 -> field d k d2 = v.
Proof.
  unfold field. destruct d; try congruence.
  destruct (assoc k kvs); congruence.
Qed.

Lemma eq_str_true (v : json) (s : string) : eq_str v s = true -> v = JStr s.
Proof.
  destruct v; simpl; try discriminate. intros H.
  apply String.eqb_eq in H. now subst.
Qed.

(** A block that only carries an annotation adds nothing to a user turn. *)
Lemma text_block_enclosed (b : list (string * json)) (body : string) :
  find_sub close_marker (body ++ close_marker) = Some (body, "") ->
  field (JObj b) "text" (JStr "") = JStr (open_marker ++ body ++ close_marker) ->
  text_block (JStr "user") (JObj b) = Return [].
Proof.
  intros Hb Ht. unfold text_block. rewrite dget_field, Ht.
  cbn [bind py_in]. unfold contains. rewrite find_sub_prefix.
  cbn [andb eq_str String.eqb Ascii.eqb Bool.eqb re_sub_reminders bind].
  now rewrite strip_reminders_enclosed.
Qed.

Lemma only_text_first_pass (d : json) (s : string) (st : maps) :
  only_text d s = true -> collect_record st d = Return st.
Proof.
  unfold only_text. intros H.
  repeat (apply andb_prop in H; destruct H as [H ?]).
  destruct d as [| | | | |kvs]; try discriminate.
  unfold collect_record.
  assert (Ety : subscript (JObj kvs) "type" = Return (JStr "user")).
  { apply eq_str_true in H3. unfold field in H3. simpl.
    destruct (assoc "type" kvs); [now subst | discriminate]. }
  rewrite Ety; cbn [bind eq_str String.eqb Ascii.eqb Bool.eqb negb].
  rewrite dget_field; cbn [bind].
  destruct (field (JObj kvs) "message" (JObj [])) as [| | | | |msg]; try discriminate.
  rewrite dget_field; cbn [bind].
  destruct (field (JObj msg) "content" (JArr [])) as [| | |s'|l|o]; try discriminate.
  - reflexivity.
  - destruct l as [|[| | | | |b] [|? ?]]; try discriminate.
    apply andb_prop in H0. destruct H0 as [Hty _].
    cbn [is_str iterate bind foldM]. unfold collect_block. destruct st as [m im].
    rewrite dget_field; cbn [bind].
    apply eq_str_true in Hty.
    rewrite (field_not_default _ _ _ JNull _ Hty) by discriminate.
    reflexivity.
Qed.

Lemma only_text_second_pass (d : json) (body : string) (st : maps)
      (messages : list turn) :
  find_sub close_marker (body ++ close_marker) = Some (body, "") ->
  only_text d (open_marker ++ body ++ close_marker) = true ->
  turn_record st messages d = Return messages.
Proof.
  unfold only_text. intros Hb H.
  repeat (apply andb_prop in H; destruct H as [H ?]).
  destruct d as [| | | | |kvs]; try discriminate.
  assert (Ety : subscript (JObj kvs) "type" = Return (JStr "user")).
  { apply eq_str_true in H3. unfold field in H3. simpl.
    destruct (assoc "type" kvs); [now subst | discriminate]. }
  unfold turn_record, build_turn.
  rewrite Ety; cbn [bind eq_str String.eqb Ascii.eqb Bool.eqb negb orb].
  rewrite dget_field; cbn [bind].
  destruct (field (JObj kvs) "message" (JObj [])) as [| | | | |msg]; try discriminate.
  rewrite !dget_field; cbn [bind].
  apply eq_str_true in H1. rewrite H1.
  destruct (field (JObj msg) "content" (JArr [])) as [| | |s'|l|o]; try discriminate.
  - apply String.eqb_eq in H0. subst s'.
    cbn [is_str iterate bind foldM turn_block]. rewrite dget_field.
    cbn [bind field assoc String.eqb Ascii.eqb Bool.eqb eq_str role].
    rewrite (text_block_enclosed _ body Hb) by reflexivity.
    reflexivity.
  - destruct l as [|[| | | | |b] [|? ?]]; try discriminate.
    apply andb_prop in H0. destruct H0 as [Hty Htx].
    apply eq_str_true in Hty, Htx.
    cbn [is_str iterate bind foldM turn_block]. rewrite dget_field, Hty.
    cbn [bind String.eqb Ascii.eqb Bool.eqb eq_str role].
    rewrite (text_block_enclosed _ body Hb Htx).
    reflexivity.
Qed.

(** C4. In a user turn, a text that contains the annotation markers has
    every annotated span removed, markers included, and what is left is
    kept only when non-empty after trimming; so a user record whose only
    content is one text enclosed in the markers leaves the output as if
    the record were absent. *)
Theorem annotated_spans_stripped
        (s body : string) (d : json) (earlier later : list json) :
  contains open_marker s = true ->
  find_sub close_marker (body ++ close_marker) = Some (body, "") ->
  only_text d (open_marker ++ body ++ close_marker) = true ->
  text_block (JStr "user") (text_blk s) =
    Return (if nonempty (strip (strip_reminders s))
            then [strip (strip_reminders s)] else [])
  /\ strip_reminders s =
       match find_sub open_marker s with
       | None => s
       | Some (before, r) =>
           match find_sub close_marker r with
           | None => s
           | Some (_, rest) => before ++ strip_reminders rest
           end
       end
  /\ parse_messages (earlier ++ d :: later) = parse_messages (earlier ++ later).
Proof.
  intros Hs Hb Hd. split; [now apply text_block_user_marked|].
  split; [apply strip_reminders_eq|].
  unfold parse_messages, collect_results, build_turns.
  rewrite (foldM_skip collect_record earlier later d)
    by (intros st; now apply only_text_first_pass with (s := open_marker ++ body ++ close_marker)).
  destruct (foldM collect_record ([], []) (earlier ++ later)) as [st|e];
    cbn [bind]; [|reflexivity].
  apply foldM_skip. intros acc. now apply only_text_second_pass with (body := body).
Qed.

Lemma annotated_spans_stripped_witness :
  text_block (JStr "user") (text_blk ("see " ++ open_marker ++ "x" ++ close_marker ++ " this")) =
    Return ["see  this"]
  /\ parse_messages (sample_log ++ reminder_record :: sample_log)
     = parse_messages (sample_log ++ sample_log).
Proof.
  pose proof (annotated_spans_stripped
                ("see " ++ open_marker ++ "x" ++ close_marker ++ " this")
                "note" reminder_record sample_log sample_log
                eq_refl eq_refl eq_refl) as (A & _ & C).
  split; [exact A | exact C].
Defined.

(** * Records whose content is a single string *)

(** C9. A record whose message content is a single string is read by the
    turn reconstructor as one text block holding that string (a string with
    visible text and no annotation marker gives a turn with that text),
    while the correlator passes over the record and takes no result from
    it. *)
Theorem string_content_one_text_block
        (st : maps) (kvs msg : list (string * json)) (ty : json) (s : string) :
  assoc "type" kvs = Some ty ->
  field (JObj kvs) "message" (JObj []) = JObj msg ->
  field (JObj msg) "content" (JArr []) = JStr s ->
  build_turn st (JObj kvs) =
    (new <- text_block (field (JObj msg) "role" ty) (text_blk s) ;;
     Return {| role := field (JObj msg) "role" ty;
               timestamp := field (JObj kvs) "timestamp" (JStr "");
               texts := new; tool_uses := []; images := [] |})
  /\ (contains open_marker s = false -> nonempty (strip s) = true ->
      build_turn st (JObj kvs) =
        Return {| role := field (JObj msg) "role" ty;
                  timestamp := field (JObj kvs) "timestamp" (JStr "");
                  texts := [s]; tool_uses := []; images := [] |})
  /\ collect_record st (JObj kvs) = Return st
  /\ tool_results [JObj kvs] = [].
Proof.
  intros Hty Hmsg Hc.
  assert (B : build_turn st (JObj kvs) =
    (new <- text_block (field (JObj msg) "role" ty) (text_blk s) ;;
     Return {| role := field (JObj msg) "role" ty;
               timestamp := field (JObj kvs) "timestamp" (JStr "");
               texts := new; tool_uses := []; images := [] |})).
  { unfold build_turn. simpl subscript. rewrite Hty; cbn [bind].
    rewrite dget_field, Hmsg; cbn [bind]. rewrite !dget_field, Hc; cbn [bind].
    cbn [bind is_str iterate foldM turn_block].
    rewrite dget_field.
    cbn [bind field assoc String.eqb Ascii.eqb Bool.eqb eq_str role timestamp texts tool_uses images app].
    fold (text_blk s).
    destruct (text_block _ (text_blk s)); reflexivity. }
  split; [exact B|]. split; [|split].
  - intros Hm Hn. rewrite B. unfold text_block, text_blk. rewrite dget_field.
    cbn [bind field assoc String.eqb Ascii.eqb Bool.eqb py_in py_strip as_str].
    rewrite Hm, Hn. reflexivity.
  - unfold collect_record. simpl subscript. rewrite Hty; cbn [bind].
    destruct (negb (eq_str ty "user")); [reflexivity|].
    rewrite dget_field, Hmsg; cbn [bind]. rewrite dget_field, Hc. reflexivity.
  - unfold tool_results, content_blocks. cbn [flat_map]. rewrite Hmsg, Hc.
    now destruct (eq_str _ "user").
Qed.

Lemma string_content_one_text_block_witness :
  build_turn ([], []) (record "user" (JStr "list the files")) =
    Return {| role := JStr "user"; timestamp := JStr "2025-01-01T10:00:00Z";
              texts := ["list the files"]; tool_uses := []; images := [] |}
  /\ collect_record ([], []) (record "user" (JStr "list the files")) = Return ([], [])
  /\ tool_results [record "user" (JStr "list the files")] = [].
Proof.
  pose proof (string_content_one_text_block ([], [])
                [("type", JStr "user");
                 ("message", JObj [("role", JStr "user");
                                   ("content", JStr "list the files")]);
                 ("timestamp", JStr "2025-01-01T10:00:00Z")]
                [("role", JStr "user"); ("content", JStr "list the files")]
                (JStr "user") "list the files" eq_refl eq_refl eq_refl)
    as (_ & B & C & D).
  split; [exact (B eq_refl eq_refl) | split; [exact C | exact D]].
Defined.

(** * Totality on well-formed records *)

Lemma returns_Return {A : Type} (a : A) : returns (Return a).
Proof. now exists a. Qed.

Lemma returns_bind {A B : Type} (c : py A) (k : A -> py B) :
  returns c -> (forall a, returns (k a)) -> returns (bind c k).
Proof. intros [a ->] Hk. apply Hk. Qed.

Lemma foldM_returns_all {A B : Type} (f : A -> B -> py A) (l : list B) :
  (forall a x, In x l -> returns (f a x)) -> forall a, returns (foldM f a l).
Proof.
  induction l as [|x l IH]; intros H a; simpl.
  - apply returns_Return.
  - apply returns_bind; [apply H; now left|].
    intros a'. apply IH. intros a'' y Hy. apply H. now right.
Qed.

Lemma eq_str_field_default (d : json) (k s : string) :
  s <> "" -> eq_str (field d k JNull) s = eq_str (field d k (JStr "")) s.
Proof.
  intros Hs. assert (E : eq_str (JStr "") s = false)
    by (simpl; destruct s; [congruence | reflexivity]).
  unfold field. destruct d; try (now rewrite E).
  destruct (assoc k kvs); [reflexivity | now rewrite E].
Qed.

Lemma data_uri_returns (src : list (string * json)) : returns (data_uri (JObj src)).
Proof. unfold data_uri. rewrite !dget_field. apply returns_Return. Qed.

Lemma result_step_wf (acc : string * list string) (rc : json) :
  wf_sub rc = true -> returns (result_step acc rc).
Proof.
  destruct acc as [t i]. unfold wf_sub, result_step.
  destruct rc as [| | | | |kvs]; try (intros _; apply returns_Return).
  cbn [is_dict negb orb]. rewrite dget_field; cbn [bind].
  destruct (eq_str (field (JObj kvs) "type" JNull) "text").
  - rewrite dget_field; cbn [bind].
    destruct (field (JObj kvs) "text" (JStr "")); try discriminate.
    intros _. apply returns_Return.
  - destruct (eq_str (field (JObj kvs) "type" JNull) "image");
      [|intros _; apply returns_Return].
    rewrite dget_field; cbn [bind].
    destruct (field (JObj kvs) "source" (JObj [])) as [| | | | |src];
      try discriminate.
    intros _. rewrite dget_field; cbn [bind].
    destruct (eq_str _ "base64"); [|apply returns_Return].
    apply returns_bind; [apply data_uri_returns | intros; apply returns_Return].
Qed.

Lemma collect_block_wf (st : maps) (b : json) :
  wf_block b = true -> returns (collect_block st b).
Proof.
  destruct st as [m im]. unfold wf_block, collect_block.
  destruct b as [| | | | |kvs]; try (intros _; apply returns_Return).
  cbn [is_dict negb orb]. rewrite dget_field; cbn [bind].
  rewrite eq_str_field_default by discriminate.
  destruct (eq_str (field (JObj kvs) "type" (JStr "")) "tool_result");
    [|intros _; apply returns_Return].
  intros H. apply andb_prop in H. destruct H as [Hh Hc].
  rewrite !dget_field; cbn [bind]. fold (block_id (JObj kvs)).
  apply returns_bind.
  - unfold result_of_content.
    destruct (field (JObj kvs) "content" (JStr "")) as [| | |s|rcs|o];
      try apply returns_Return.
    apply foldM_returns_all. intros acc rc Hrc. apply result_step_wf.
    rewrite forallb_forall in Hc. auto.
  - intros [t i]. destruct (truthy _); [|apply returns_Return].
    unfold setitem. rewrite Hh; cbn [bind].
    destruct i; apply returns_Return.
Qed.

Lemma text_block_wf (r block : json) :
  is_dict block = true -> is_str (field block "text" (JStr "")) = true ->
  returns (text_block r block).
Proof.
  destruct block as [| | | | |kvs]; try discriminate. intros _ H.
  unfold text_block. rewrite dget_field; cbn [bind].
  destruct (field (JObj kvs) "text" (JStr "")); try discriminate.
  cbn [py_in bind]. destruct (_ && _); cbn [re_sub_reminders py_strip bind];
    destruct (nonempty _); apply returns_Return.
Qed.

Lemma turn_block_wf (st : maps) (t : turn) (b : json) :
  wf_block b = true -> returns (turn_block st t b).
Proof.
  unfold wf_block, turn_block.
  destruct b as [| | | | |kvs]; try (intros _; apply returns_Return).
  cbn [is_dict negb orb]. rewrite dget_field; cbn [bind].
  destruct (eq_str (field (JObj kvs) "type" (JStr "")) "tool_result") eqn:Er.
  { intros _. rewrite !(eq_str_excl _ _ Er) by discriminate. apply returns_Return. }
  destruct (eq_str (field (JObj kvs) "type" (JStr "")) "text").
  { intros H. apply returns_bind; [now apply text_block_wf|].
    intros; apply returns_Return. }
  destruct (eq_str (field (JObj kvs) "type" (JStr "")) "tool_use").
  { intros H. apply returns_bind; [|intros; apply returns_Return].
    destruct st as [m im]. unfold tool_use_block. rewrite !dget_field; cbn [bind].
    unfold getitem. rewrite H; cbn [bind]. apply returns_Return. }
  destruct (eq_str (field (JObj kvs) "type" (JStr "")) "image");
    [|intros _; apply returns_Return].
  intros H. apply returns_bind; [|intros; apply returns_Return].
  unfold image_block. rewrite dget_field; cbn [bind].
  destruct (field (JObj kvs) "source" (JObj [])) as [| | | | |src]; try discriminate.
  rewrite dget_field; cbn [bind].
  destruct (eq_str _ "base64"); [|apply returns_Return].
  apply returns_bind; [apply data_uri_returns | intros; apply returns_Return].
Qed.

Lemma collect_record_wf (st : maps) (d : json) :
  wf_record d = true -> returns (collect_record st d).
Proof.
  unfold wf_record, collect_record.
  destruct d as [| | | | |kvs]; try discriminate.
  simpl subscript. destruct (assoc "type" kvs) as [ty|]; [|discriminate].
  cbn [bind]. destruct (eq_str ty "user"); cbn [negb orb];
    [|intros _; apply returns_Return].
  rewrite dget_field; cbn [bind].
  destruct (field (JObj kvs) "message" (JObj [])) as [| | | | |msg]; try discriminate.
  rewrite dget_field; cbn [bind].
  destruct (field (JObj msg) "content" (JArr [])) as [| | |s|l|o]; try discriminate;
    intros H; cbn [is_str iterate bind]; [apply returns_Return|].
  apply foldM_returns_all. intros st' b Hb. apply collect_block_wf.
  rewrite forallb_forall in H. auto.
Qed.

Lemma turn_record_wf (st : maps) (messages : list turn) (d : json) :
  wf_record d = true -> returns (turn_record st messages d).
Proof.
  unfold wf_record, turn_record, build_turn.
  destruct d as [| | | | |kvs]; try discriminate.
  simpl subscript. destruct (assoc "type" kvs) as [ty|]; [|discriminate].
  cbn [bind]. destruct (eq_str ty "user" || eq_str ty "assistant"); cbn [negb];
    [|intros _; apply returns_Return].
  rewrite dget_field; cbn [bind].
  destruct (field (JObj kvs) "message" (JObj [])) as [| | | | |msg]; try discriminate.
  rewrite !dget_field; cbn [bind].
  destruct (field (JObj msg) "content" (JArr [])) as [| | |s|l|o]; try discriminate;
    intros H; cbn [is_str iterate bind].
  - apply returns_bind; [|intros t; destruct (keep t); apply returns_Return].
    apply foldM_returns_all. intros t b [<-|[]]. now apply turn_block_wf.
  - apply returns_bind; [|intros t; destruct (keep t); apply returns_Return].
    apply foldM_returns_all. intros t b Hb. apply turn_block_wf.
    rewrite forallb_forall in H. auto.
Qed.

(** C10, as the code has it.  Turn reconstruction returns, raising nothing
    in either pass, on every list of well-formed records: mappings with a
    [type] key whose message, for a user or assistant record, is a mapping
    with a string or a list of blocks as content, the blocks with string
    texts, hashable ids and image sources that are mappings. *)
Theorem parse_messages_total (all_records : list json) :
  forallb wf_record all_records = true ->
  returns (collect_results all_records)
  /\ (forall st, returns (build_turns st all_records))
  /\ returns (parse_messages all_records).
Proof.
  intros H. rewrite forallb_forall in H.
  assert (P1 : returns (collect_results all_records)).
  { apply foldM_returns_all. intros st d Hd. apply collect_record_wf; auto. }
  assert (P2 : forall st, returns (build_turns st all_records)).
  { intros st. apply foldM_returns_all. intros acc d Hd.
    apply turn_record_wf; auto. }
  split; [exact P1|]. split; [exact P2|].
  unfold parse_messages. now apply returns_bind.
Qed.

Lemma parse_messages_total_witness :
  returns (collect_results sample_log)
  /\ (forall st, returns (build_turns st sample_log))
  /\ returns (parse_messages sample_log).
Proof. apply (parse_messages_total sample_log). vm_compute. reflexivity. Defined.

(** C10 as stated fails: a record without a [type] key is not skipped, the
    lookup [d['type']] of the first pass raises [KeyError]; and a record
    whose content is [null] raises [TypeError]. *)
Lemma parse_messages_raises :
  parse_messages [JObj [("uuid", JStr "0001")]] = Raise KeyError
  /\ parse_messages
       [JObj [("type", JStr "user");
              ("message", JObj [("role", JStr "user"); ("content", JNull)])]]
     = Raise TypeError.
Proof. split; reflexivity. Qed.

(** * The table rule *)

Lemma table_lines_body (rows rest : list string) :
  forallb is_table_line rows = true -> run_ends rest = true ->
  table_lines true (rows ++ rest) =
    (map (fun line => row "td" (cells_of line)) (data_rows rows)
       ++ table_close :: table_lines false rest)%list.
Proof.
  intros Hrows Hrest. induction rows as [|line rows IH]; simpl.
  - destruct rest as [|x rest]; [reflexivity|].
    simpl in Hrest |- *. apply negb_true_iff in Hrest. now rewrite Hrest.
  - simpl in Hrows. apply andb_prop in Hrows. destruct Hrows as [Hl Hrows].
    rewrite Hl. destruct (is_separator line); simpl; rewrite IH by assumption;
      reflexivity.
Qed.

Lemma table_lines_run (rows rest : list string) :
  forallb is_table_line rows = true -> run_ends rest = true ->
  table_lines false (rows ++ rest) =
    (table_of (data_rows rows) ++ table_lines false rest)%list.
Proof.
  intros Hrows Hrest. induction rows as [|line rows IH]; [reflexivity|].
  simpl in Hrows. apply andb_prop in Hrows. destruct Hrows as [Hl Hrows].
  simpl. rewrite Hl. destruct (is_separator line); simpl.
  - now apply IH.
  - rewrite table_lines_body by assumption. now rewrite <- app_assoc.
Qed.

(** C5, as the code has it.  Within a run of consecutive table lines, a
    row whose cells are all made of dashes and colons is discarded, the
    first row that is left becomes the header row, whether or not a
    separator follows it, and every other row a body row; of three table
    lines with a separator in the middle, the first gives the header row
    and the third the one body row. *)
Theorem table_first_row_is_header (rows rest : list string) :
  forallb is_table_line rows = true -> run_ends rest = true ->
  table_lines false (rows ++ rest) =
    (table_of (data_rows rows) ++ table_lines false rest)%list
  /\ (forall l1 l2 l3,
        rows = [l1; l2; l3] -> is_separator l1 = false ->
        is_separator l2 = true -> is_separator l3 = false ->
        table_lines false (rows ++ rest) =
          ([table_open; row "th" (cells_of l1); row "td" (cells_of l3);
            table_close] ++ table_lines false rest)%list).
Proof.
  intros Hrows Hrest. split; [now apply table_lines_run|].
  intros l1 l2 l3 -> H1 H2 H3. rewrite table_lines_run by assumption.
  unfold data_rows. simpl filter. rewrite H1, H2, H3. reflexivity.
Qed.

Lemma table_first_row_is_header_witness :
  md_to_html ("| name | size |" ++ nl ++ "|------|-----:|" ++ nl ++ "| a.txt | 12 |")
  = "<p>" ++ table_open ++ nl ++ "<tr><th>name</th><th>size</th></tr>" ++ nl
          ++ "<tr><td>a.txt</td><td>12</td></tr>" ++ nl ++ table_close ++ "</p>"
  /\ table_lines false (["| name | size |"; "|------|-----:|"; "| a.txt | 12 |"] ++ [])
     = ([table_open; row "th" ["name"; "size"]; row "td" ["a.txt"; "12"];
         table_close] ++ [])%list.
Proof.
  split; [vm_compute; reflexivity|].
  destruct (table_first_row_is_header
              ["| name | size |"; "|------|-----:|"; "| a.txt | 12 |"] []
              eq_refl eq_refl) as [_ H].
  exact (H _ _ _ eq_refl eq_refl eq_refl eq_refl).
Defined.

(** C5 as stated fails: in a table whose separator comes after the second
    row, the row before the separator is a body row and the first row the
    header. *)
Lemma table_header_not_before_separator :
  is_separator "|-|" = true
  /\ table_lines false ["|a|"; "|b|"; "|-|"; "|c|"]
     = [table_open; row "th" ["a"]; row "td" ["b"]; row "td" ["c"]; table_close]
  /\ md_to_html ("|a|" ++ nl ++ "|b|" ++ nl ++ "|-|" ++ nl ++ "|c|")
     = "<p>" ++ table_open ++ nl ++ "<tr><th>a</th></tr>" ++ nl
             ++ "<tr><td>b</td></tr>" ++ nl ++ "<tr><td>c</td></tr>" ++ nl
             ++ table_close ++ "</p>".
Proof. repeat split; vm_compute; reflexivity. Qed.

(** * The transducer on text without Markdown syntax *)

Lemma all_chars_impl (p q : ascii -> bool) (s : string) :
  (forall c, p c = true -> q c = true) ->
  all_chars p s = true -> all_chars q s = true.
Proof.
  intros Hpq. induction s as [|c s IH]; simpl; [reflexivity|].
  intros H. apply andb_prop in H. destruct H as [Hc Hs].
  now rewrite (Hpq _ Hc), IH.
Qed.

Lemma all_chars_app (p : ascii -> bool) (a b : string) :
  all_chars p (a ++ b) = all_chars p a && all_chars p b.
Proof.
  induction a as [|c a IH]; simpl; [reflexivity|]. now rewrite IH, andb_assoc.
Qed.

(** A pattern that can only start at the character [x] leaves alone a text
    that does not hold [x]. *)
Lemma sub_from_app_id (m : string -> option (string * string)) (x : ascii)
      (a b : string) :
  (forall c r, Ascii.eqb c x = false -> m (String c r) = None) ->
  all_chars (fun c => negb (Ascii.eqb c x)) a = true ->
  sub_from m 0 (a ++ b) = a ++ sub_from m 0 b.
Proof.
  intros Hm. induction a as [|c a IH]; simpl; [reflexivity|].
  intros H. apply andb_prop in H. destruct H as [Hc Ha].
  apply negb_true_iff in Hc. now rewrite (Hm _ _ Hc), IH.
Qed.

Lemma sub_id (m : string -> option (string * string)) (x : ascii) (s : string) :
  (forall c r, Ascii.eqb c x = false -> m (String c r) = None) ->
  all_chars (fun c => negb (Ascii.eqb c x)) s = true ->
  sub m s = s.
Proof.
  intros Hm Hs. unfold sub. rewrite <- (append_nil_r s) at 1.
  rewrite (sub_from_app_id m x s "" Hm Hs). simpl. apply append_nil_r.
Qed.

Lemma drop_prefix_head (x c : ascii) (p r : string) :
  Ascii.eqb c x = false -> drop_prefix (String x p) (String c r) = None.
Proof. intros H. simpl. now rewrite Ascii.eqb_sym, H. Qed.

Lemma drop_prefix_common (a p s : string) :
  drop_prefix (a ++ p) (a ++ s) = drop_prefix p s.
Proof.
  induction a as [|x a IH]; simpl; [reflexivity|]. now rewrite Ascii.eqb_refl.
Qed.

Lemma code_block_at_head (c : ascii) (r : string) :
  Ascii.eqb c "`"%char = false -> code_block_at (String c r) = None.
Proof.
  intros H. unfold code_block_at, fence. now rewrite drop_prefix_head.
Qed.

Lemma inline_code_at_head (c : ascii) (r : string) :
  Ascii.eqb c "`"%char = false -> inline_code_at (String c r) = None.
Proof. intros H. unfold inline_code_at. now rewrite H. Qed.

Lemma bold_at_head (c : ascii) (r : string) :
  Ascii.eqb c "*"%char = false -> bold_at (String c r) = None.
Proof. intros H. unfold bold_at. now rewrite drop_prefix_head. Qed.

Lemma list_at_head (c : ascii) (r : string) :
  Ascii.eqb c "<"%char = false -> list_at (String c r) = None.
Proof.
  intros H. unfold list_at, list_item_at. now rewrite drop_prefix_head.
Qed.

Lemma link_at_head (c : ascii) (r : string) :
  Ascii.eqb c "["%char = false -> link_at (String c r) = None.
Proof. intros H. unfold link_at. now rewrite H. Qed.

Lemma paragraph_break_at_head (c : ascii) (r : string) :
  Ascii.eqb c LF = false -> paragraph_break_at (String c r) = None.
Proof.
  intros H. unfold paragraph_break_at. change (nl ++ nl) with (String LF nl).
  now rewrite drop_prefix_head.
Qed.

Lemma literal_at_head (x c : ascii) (p out r : string) :
  Ascii.eqb c x = false -> literal_at (String x p) out (String c r) = None.
Proof. intros H. unfold literal_at. now rewrite drop_prefix_head. Qed.

Lemma split_on_none (x : ascii) (s : string) :
  all_chars (fun c => negb (Ascii.eqb c x)) s = true -> split_on x s = [s].
Proof.
  induction s as [|c s IH]; simpl; [reflexivity|].
  intros H. apply andb_prop in H. destruct H as [Hc Hs].
  apply negb_true_iff in Hc. now rewrite Hc, IH.
Qed.

Lemma all_chars_lstrip (p : ascii -> bool) (s : string) :
  all_chars p s = true -> all_chars p (lstrip s) = true.
Proof.
  induction s as [|c s IH]; simpl; [reflexivity|].
  intros H. destruct (is_space c); [|exact H].
  apply andb_prop in H. now apply IH.
Qed.

Lemma all_chars_rstrip (p : ascii -> bool) (s : string) :
  all_chars p s = true -> all_chars p (rstrip s) = true.
Proof.
  induction s as [|c s IH]; simpl; [reflexivity|].
  intros H. apply andb_prop in H. destruct H as [Hc Hs].
  specialize (IH Hs). destruct (rstrip s).
  - destruct (is_space c); simpl; [reflexivity | now rewrite Hc].
  - simpl in *. now rewrite Hc, IH.
Qed.

Lemma contains_char_none (x : ascii) (s : string) :
  all_chars (fun c => negb (Ascii.eqb c x)) s = true ->
  contains (String x "") s = false.
Proof.
  unfold contains. induction s as [|c s IH]; simpl; [reflexivity|].
  intros H. apply andb_prop in H. destruct H as [Hc Hs].
  apply negb_true_iff in Hc. rewrite Ascii.eqb_sym, Hc.
  specialize (IH Hs). now destruct (find_sub (String x "") s) as [[a b]|].
Qed.

Lemma wrap_line_head (x c : ascii) (p opening closing r : string) :
  Ascii.eqb c x = false ->
  wrap_line (String x p) opening closing (String c r) = String c r.
Proof. intros H. unfold wrap_line. now rewrite drop_prefix_head. Qed.

(** The rules leave a text alone that holds no syntax character, and wrap
    it into one paragraph. *)
Lemma md_rules_quiet (c0 : ascii) (r0 : string) :
  all_chars quiet (String c0 r0) = true ->
  Ascii.eqb c0 "#"%char = false ->
  md_rules (String c0 r0) = "<p>" ++ String c0 r0 ++ "</p>".
Proof.
  intros Hq Hh. set (e := String c0 r0) in *.
  assert (Q : forall x, quiet x = false ->
                all_chars (fun c => negb (Ascii.eqb c x)) e = true).
  { intros x Hx. apply (all_chars_impl quiet); [|exact Hq].
    intros c Hc. apply negb_true_iff. destruct (Ascii.eqb_spec c x); [|reflexivity].
    subst. congruence. }
  assert (L : split_on LF e = [e]) by (apply split_on_none, Q; reflexivity).
  unfold md_rules. cbv zeta.
  rewrite (sub_id code_block_at "`" e code_block_at_head) by (apply Q; reflexivity).
  rewrite (sub_id inline_code_at "`" e inline_code_at_head) by (apply Q; reflexivity).
  rewrite (sub_id bold_at "*" e bold_at_head) by (apply Q; reflexivity).
  assert (W : forall p o cl, sub_lines (wrap_line (String "#" p) o cl) e = e).
  { intros p o cl. unfold sub_lines. rewrite L. simpl map. unfold e.
    now rewrite wrap_line_head. }
  rewrite !W.
  assert (T : tables e = e).
  { unfold tables. rewrite L. simpl table_lines.
    assert (is_table_line e = false) as ->; [|reflexivity].
    unfold is_table_line. rewrite contains_char_none; [reflexivity|].
    unfold strip. apply all_chars_lstrip, all_chars_rstrip, Q. reflexivity. }
  rewrite T.
  assert (W' : sub_lines (wrap_line "- " "<li>" "</li>") e = e).
  { unfold sub_lines. rewrite L. simpl map. unfold e.
    rewrite wrap_line_head; [reflexivity|].
    simpl in Hq. apply andb_prop in Hq. destruct Hq as [Hq _].
    unfold quiet, is_markup in Hq. destruct (Ascii.eqb c0 "-"); [|reflexivity].
    rewrite !orb_true_r in Hq. discriminate. }
  rewrite W'.
  rewrite (sub_id list_at "<" e list_at_head) by (apply Q; reflexivity).
  rewrite (sub_id link_at "[" e link_at_head) by (apply Q; reflexivity).
  rewrite (sub_id paragraph_break_at LF e paragraph_break_at_head)
    by (apply Q; reflexivity).
  assert (C0 : Ascii.eqb c0 "<" = false /\ Ascii.eqb c0 "-" = false).
  { simpl in Hq. apply andb_prop in Hq. destruct Hq as [Hq _].
    unfold quiet, is_markup in Hq.
    destruct (Ascii.eqb c0 "<"), (Ascii.eqb c0 "-"); auto;
      rewrite ?orb_true_r in Hq; simpl in Hq; try discriminate;
      rewrite ?andb_false_r in Hq; discriminate. }
  destruct C0 as [C1 C2].
  assert (P : forall pat out,
             literal_at (String "<" pat) out ("<p>" ++ e ++ "</p>") = None ->
             sub_from (literal_at (String "<" pat) out) 0 "</p>" = "</p>" ->
             sub (literal_at (String "<" pat) out) ("<p>" ++ e ++ "</p>")
             = "<p>" ++ e ++ "</p>").
  { intros pat out H1 H2. unfold sub.
    change ("<p>" ++ e ++ "</p>") with (String "<" ("p>" ++ e ++ "</p>")) in *.
    cbn [sub_from]. rewrite H1. f_equal.
    rewrite <- append_assoc.
    rewrite (sub_from_app_id _ "<" ("p>" ++ e) "</p>");
      [now rewrite H2, append_assoc | intros; now apply literal_at_head |].
    rewrite all_chars_app. simpl. apply Q. reflexivity. }
  rewrite P.
  - apply P; [|reflexivity].
    unfold literal_at. change "<p>---</p>" with ("<p>" ++ "---</p>").
    rewrite drop_prefix_common. unfold e.
    change (String c0 r0 ++ "</p>") with (String c0 (r0 ++ "</p>")).
    now rewrite drop_prefix_head.
  - unfold literal_at. change "<p></p>" with ("<p>" ++ "</p>").
    rewrite drop_prefix_common. unfold e.
    change (String c0 r0 ++ "</p>") with (String c0 (r0 ++ "</p>")).
    now rewrite drop_prefix_head.
  - reflexivity.
Qed.

Lemma escape_char_cases (c : ascii) :
  (escape_char c = String c "" /\ is_raw c = false /\ Ascii.eqb c "&"%char = false)
  \/ (exists r, escape_char c = String "&"%char r
                /\ all_chars (fun x => quiet x && negb (is_raw x)) r = true).
Proof.
  unfold escape_char, is_raw.
  destruct (Ascii.eqb c "&"); [right; eexists; split; reflexivity|].
  destruct (Ascii.eqb c "<"); [right; eexists; split; reflexivity|].
  destruct (Ascii.eqb c ">"); [right; eexists; split; reflexivity|].
  destruct (Ascii.eqb c "034"); [right; eexists; split; reflexivity|].
  destruct (Ascii.eqb c "'"); [right; eexists; split; reflexivity|].
  left. auto.
Qed.

Lemma html_escape_no_raw (text : string) :
  all_chars (fun c => negb (is_raw c)) (html_escape text) = true.
Proof.
  induction text as [|c text IH]; simpl; [reflexivity|].
  rewrite all_chars_app, IH, andb_true_r.
  destruct (escape_char_cases c) as [(-> & Hr & _)|(r & -> & Hr)]; simpl.
  - now rewrite Hr.
  - apply (all_chars_impl (fun x => quiet x && negb (is_raw x))); [|exact Hr].
    intros x Hx. apply andb_prop in Hx. tauto.
Qed.

Lemma html_escape_quiet (text : string) :
  all_chars (fun c => negb (is_markup c)) text = true ->
  all_chars quiet (html_escape text) = true.
Proof.
  induction text as [|c text IH]; simpl; [reflexivity|].
  intros H. apply andb_prop in H. destruct H as [Hc Ht].
  rewrite all_chars_app, (IH Ht), andb_true_r.
  destruct (escape_char_cases c) as [(-> & Hr & _)|(r & -> & Hr)]; simpl.
  - unfold quiet. rewrite Hc. unfold is_raw in Hr.
    destruct (Ascii.eqb c "<"); [discriminate | reflexivity].
  - apply (all_chars_impl (fun x => quiet x && negb (is_raw x))); [|exact Hr].
    intros x Hx. apply andb_prop in Hx. tauto.
Qed.

Lemma html_escape_head (c : ascii) (text : string) :
  exists x r,
    html_escape (String c text) = String x r
    /\ (Ascii.eqb c "#"%char = false -> Ascii.eqb x "#"%char = false).
Proof.
  simpl. destruct (escape_char_cases c) as [(-> & _)|(r & -> & _)];
    eexists; eexists; split; try reflexivity; auto.
Qed.

(** C7. The transducer escapes the text before any rule of the subset is
    applied, so no raw angle bracket or quote of the text reaches a rule;
    on "**bold** and `code`" it wraps exactly "bold" in strong emphasis and
    exactly "code" in an inline-code element; ampersands and less-than
    signs elsewhere come out escaped, and a text without syntax characters
    comes out as its escaped form in one paragraph. *)
Theorem md_escapes_before_rules :
  (forall text, md_to_html text = md_rules (html_escape text))
  /\ (forall text, all_chars (fun c => negb (is_raw c)) (html_escape text) = true)
  /\ md_to_html "**bold** and `code`"
     = "<p><strong>bold</strong> and <code class=" ++ dq ++ "inline-code" ++ dq
         ++ ">code</code></p>"
  /\ md_to_html "a & b < c, **bold** & `code`"
     = "<p>a &amp; b &lt; c, <strong>bold</strong> &amp; <code class=" ++ dq
         ++ "inline-code" ++ dq ++ ">code</code></p>"
  /\ (forall text, text <> "" -> markup_free text = true ->
                   md_to_html text = "<p>" ++ html_escape text ++ "</p>").
Proof.
  split; [reflexivity|]. split; [apply html_escape_no_raw|].
  split; [vm_compute; reflexivity|]. split; [vm_compute; reflexivity|].
  intros text Hne Hfree. unfold markup_free in Hfree.
  apply andb_prop in Hfree. destruct Hfree as [Hm Hs].
  destruct text as [|c text]; [congruence|].
  pose proof (html_escape_quiet _ Hm) as Hq.
  destruct (html_escape_head c text) as (x & r & E & Hx).
  unfold md_to_html. rewrite E in *. apply md_rules_quiet; [exact Hq|].
  apply Hx. apply negb_true_iff in Hs. unfold startswith in Hs.
  cbn [drop_prefix] in Hs.
  rewrite Ascii.eqb_sym. now destruct (Ascii.eqb "#" c).
Qed.

Lemma md_escapes_before_rules_witness :
  md_to_html "R&D <draft> 'v2'" = "<p>R&amp;D &lt;draft&gt; &#x27;v2&#x27;</p>".
Proof.
  destruct md_escapes_before_rules as (_ & _ & _ & _ & H).
  apply (H "R&D <draft> 'v2'"); [discriminate | reflexivity].
Defined.

(** * Error styling in the HTML renderer *)

Lemma lower_app (a b : string) : lower (a ++ b) = lower a ++ lower b.
Proof. induction a as [|c a IH]; simpl; [reflexivity | now rewrite IH]. Qed.

Lemma lower_split (x y s : string) :
  lower s = x ++ y -> exists s1 s2, s = s1 ++ s2 /\ lower s1 = x /\ lower s2 = y.
Proof.
  revert s; induction x as [|c x IH]; intros s H.
  - exists "", s. auto.
  - destruct s as [|d s]; [discriminate|]. simpl in H. inversion H; subst.
    destruct (IH s H2) as (s1 & s2 & -> & <- & <-).
    exists (String d s1), s2. auto.
Qed.

Lemma find_sub_complete (p a b : string) :
  exists a' b', find_sub p (a ++ p ++ b) = Some (a', b').
Proof.
  induction a as [|c a IH].
  - simpl. rewrite find_sub_prefix. eauto.
  - destruct IH as (a' & b' & IH). simpl append. cbn [find_sub].
    destruct (drop_prefix p (String c (a ++ p ++ b))); [eauto|].
    rewrite IH. eauto.
Qed.

Lemma contains_iff (p s : string) :
  contains p s = true <-> exists a b, s = a ++ p ++ b.
Proof.
  unfold contains. split.
  - destruct (find_sub p s) as [[a b]|] eqn:E; [|discriminate].
    intros _. apply find_sub_sound in E. eauto.
  - intros (a & b & ->). destruct (find_sub_complete p a b) as (a' & b' & ->).
    reflexivity.
Qed.

Lemma contains_lower_mentions (w s : string) :
  contains w (lower s) = true <-> mentions w s.
Proof.
  rewrite contains_iff. unfold mentions. split.
  - intros (x & y & H). apply lower_split in H.
    destruct H as (a & r & -> & Ha & Hr). apply lower_split in Hr.
    destruct Hr as (u & b & -> & Hu & Hb). eauto.
  - intros (a & u & b & -> & <-). exists (lower a), (lower b).
    now rewrite !lower_app.
Qed.

Lemma err_class_spec (d : string) :
  (err_class d = " error" <-> mentions_failure d)
  /\ (err_class d = "" <-> ~ mentions_failure d).
Proof.
  assert (E : existsb (fun w => contains w (lower d)) failure_keywords = true
              <-> mentions_failure d).
  { rewrite existsb_exists. unfold mentions_failure.
    split; intros (w & Hw & H); exists w; split; auto;
      now apply contains_lower_mentions. }
  unfold err_class.
  destruct (existsb (fun w => contains w (lower d)) failure_keywords).
  - split; split; try discriminate; try reflexivity.
    + intros _. now apply E.
    + intros N. exfalso. apply N. now apply E.
  - split; split; try discriminate; try reflexivity.
    + intros M. apply E in M. discriminate.
    + intros _ M. apply E in M. discriminate.
Qed.

(** C8, as the code has it.  The rendered result text gets the error
    styling exactly when the displayed text (the result text when it has
    at most 2000 characters, otherwise its first 2000 characters and a note
    of the length) holds one of the failure keywords, whatever the case; the
    classification only chooses the class attribute of the element that
    holds the escaped displayed text. *)
Theorem error_styling_on_displayed_text (tool : tool_entry) :
  nonempty (result tool) = true ->
  let d := display_result (result tool) in
  (err_class d = " error" <-> mentions_failure d)
  /\ (err_class d = "" <-> ~ mentions_failure d)
  /\ (String.length (result tool) <= 2000 -> d = result tool)
  /\ (2000 < String.length (result tool) ->
      d = take 2000 (result tool) ++ nl ++ "... ("
            ++ str_of_nat (String.length (result tool)) ++ " chars total)")
  /\ tool_output tool =
       ([output_open; output_label;
         output_content
           (if existsb (fun w => contains w (lower d)) failure_keywords
            then " error" else "") d]
        ++ map output_image (result_images tool) ++ [output_close])%list.
Proof.
  intros Hne d. destruct (err_class_spec d) as [A B].
  split; [exact A|]. split; [exact B|]. split; [|split].
  - intros Hlen. unfold d, display_result, cut.
    destruct (Nat.ltb_spec 2000 (String.length (result tool))); [lia | reflexivity].
  - intros Hlen. unfold d, display_result, cut.
    destruct (Nat.ltb_spec 2000 (String.length (result tool))); [|lia].
    reflexivity.
  - unfold tool_output. rewrite Hne. reflexivity.
Qed.

Lemma error_styling_on_displayed_text_witness :
  err_class (display_result "make: *** [all] Error 2") = " error"
  /\ mentions_failure (display_result "make: *** [all] Error 2").
Proof.
  destruct (error_styling_on_displayed_text
              {| name := JStr "Bash"; input := JObj []; id := JStr "t";
                 result := "make: *** [all] Error 2"; result_images := [] |}
              eq_refl) as ((A & _) & _).
  split; [reflexivity|]. apply A. reflexivity.
Defined.

(** C8 as stated fails: a result that mentions an error after its first
    2000 characters is rendered without the error styling. *)
Lemma late_error_not_styled :
  mentions_failure (result long_result)
  /\ err_class (display_result (result long_result)) = ""
  /\ tool_output long_result =
       [output_open; output_label;
        output_content "" (display_result (result long_result)); output_close].
Proof.
  split; [|split].
  - exists "error". split; [now left|].
    exists (replicate 2000 "a"), "error", "". split; reflexivity.
  - vm_compute. reflexivity.
  - vm_compute. reflexivity.
Qed.

(** * Truncation in the tool formatters *)

Lemma cut_spec (limit : nat) (suffix s : string) :
  (String.length s <= limit -> cut limit suffix s = s)
  /\ (limit < String.length s -> cut limit suffix s = take limit s ++ suffix).
Proof.
  unfold cut. destruct (Nat.ltb_spec limit (String.length s)); split; intros;
    try reflexivity; lia.
Qed.

Lemma cut_value_str (limit keep : nat) (suffix s : string) :
  cut_value limit keep suffix (JStr s) =
    Return (JStr (if (limit <? String.length s)%nat
                  then take keep s ++ suffix else s)).
Proof.
  unfold cut_value. cbn [py_len bind].
  now destruct (limit <? String.length s)%nat.
Qed.



(** * The scans, free of their counters *)

(** Reassociates concatenations to the right. *)
Ltac norm_app :=
  repeat (first [rewrite append_assoc | progress (cbn [append])]);
  try reflexivity.

Lemma sub_from_skip (m : string -> option (string * string)) (a b : string) :
  sub_from m (String.length a) (a ++ b) = sub_from m 0 b.
Proof. induction a as [|c a IH]; simpl; [reflexivity | exact IH]. Qed.

(** Where the pattern matches, its replacement is written and the scan
    resumes right after the match. *)
Lemma sub_match (m : string -> option (string * string))
      (matched rest out : string) :
  matched <> "" -> m (matched ++ rest) = Some (out, rest) ->
  sub m (matched ++ rest) = out ++ sub m rest.
Proof.
  intros Hne Hm. destruct matched as [|c matched]; [congruence|].
  unfold sub. simpl append in *. cbn [sub_from]. rewrite Hm. f_equal.
  rewrite length_append, Nat.add_sub. apply sub_from_skip.
Qed.

(** Where it does not, the character is copied. *)
Lemma sub_pass (m : string -> option (string * string)) (c : ascii) (s : string) :
  m (String c s) = None -> sub m (String c s) = String c (sub m s).
Proof. intros Hm. unfold sub. cbn [sub_from]. now rewrite Hm. Qed.

Lemma sub_eq (m : string -> option (string * string)) (s : string) :
  consumes m ->
  sub m s =
    match s with
    | "" => ""
    | String c s' =>
        match m s with
        | Some (out, rest) => out ++ sub m rest
        | None => String c (sub m s')
        end
    end.
Proof.
  intros Hm. destruct s as [|c s']; [reflexivity|].
  destruct (m (String c s')) as [[out rest]|] eqn:E; [|now apply sub_pass].
  destruct (Hm _ _ _ E) as (matched & Hne & Hs). rewrite Hs in *.
  now apply sub_match.
Qed.

Lemma span_sound (p : ascii -> bool) (s a b : string) :
  span p s = (a, b) -> s = a ++ b.
Proof.
  revert a b; induction s as [|c s IH]; intros a b H; simpl in H.
  - now inversion H.
  - destruct (p c); [|now inversion H].
    destruct (span p s) as [a' b']. inversion H; subst.
    simpl. now rewrite (IH _ _ eq_refl).
Qed.

Lemma lazy_until_sound (stop s a b : string) :
  lazy_until stop s = Some (a, b) -> s = a ++ stop ++ b.
Proof.
  revert a b; induction s as [|c s IH]; intros a b H.
  - simpl in H. destruct (drop_prefix stop "") eqn:E; [|discriminate].
    inversion H; subst. simpl. now apply drop_prefix_sound.
  - cbn [lazy_until] in H. destruct (drop_prefix stop (String c s)) eqn:E.
    + inversion H; subst. simpl. now apply drop_prefix_sound.
    + destruct (Ascii.eqb c LF); [discriminate|].
      destruct (lazy_until stop s) as [[a' b']|]; [|discriminate].
      inversion H; subst. simpl. now rewrite (IH _ _ eq_refl).
Qed.

Lemma consumes_literal (x : ascii) (p out : string) :
  consumes (literal_at (String x p) out).
Proof.
  intros s o rest H. unfold literal_at in H.
  destruct (drop_prefix (String x p) s) eqn:E; [|discriminate].
  inversion H; subst. apply drop_prefix_sound in E.
  exists (String x p). split; [discriminate | exact E].
Qed.

Lemma consumes_code_block : consumes code_block_at.
Proof.
  intros s out rest H. unfold code_block_at in H.
  destruct (drop_prefix fence s) as [r|] eqn:E; [|discriminate].
  apply drop_prefix_sound in E.
  destruct (span is_word r) as [tag r1] eqn:Es. apply span_sound in Es.
  cbn [snd] in H. destruct r1 as [|c r']; [discriminate|].
  destruct (Ascii.eqb c LF); [|discriminate].
  destruct (find_sub fence r') as [[code rest']|] eqn:Ef; [|discriminate].
  inversion H; subst. apply find_sub_sound in Ef. subst r'.
  exists (fence ++ tag ++ String c (code ++ fence)). split; [discriminate|].
  norm_app.
Qed.

Lemma consumes_inline_code : consumes inline_code_at.
Proof.
  intros s out rest H. unfold inline_code_at in H.
  destruct s as [|c r]; [discriminate|].
  destruct (Ascii.eqb c "`"); [|discriminate].
  destruct (span _ r) as [body r1] eqn:Es. apply span_sound in Es.
  destruct body as [|b body]; [discriminate|].
  destruct r1 as [|q rest']; [discriminate|]. inversion H; subst.
  exists (String c (String b body ++ String q "")). split; [discriminate|].
  norm_app.
Qed.

Lemma consumes_bold : consumes bold_at.
Proof.
  intros s out rest H. unfold bold_at in H.
  destruct (drop_prefix "**" s) as [[|c r]|] eqn:E; try discriminate.
  apply drop_prefix_sound in E.
  destruct (Ascii.eqb c LF); [discriminate|].
  destruct (lazy_until "**" r) as [[body rest']|] eqn:El; [|discriminate].
  inversion H; subst. apply lazy_until_sound in El. subst r.
  exists ("**" ++ String c body ++ "**"). split; [discriminate|].
  norm_app.
Qed.

Lemma consumes_link : consumes link_at.
Proof.
  intros s out rest H. unfold link_at in H.
  destruct s as [|c r]; [discriminate|].
  destruct (Ascii.eqb c "["); [|discriminate].
  destruct (span _ r) as [text r1] eqn:Es. apply span_sound in Es.
  destruct text as [|t text]; [discriminate|].
  destruct r1 as [|q [|p r']]; try discriminate.
  destruct (Ascii.eqb p "("); [|discriminate].
  destruct (span _ r') as [url r2] eqn:Eu. apply span_sound in Eu.
  destruct url as [|u url]; [discriminate|].
  destruct r2 as [|q' rest']; [discriminate|]. inversion H; subst.
  exists (String c (String t text ++ String q (String p (String u url ++ String q' "")))).
  split; [discriminate|]. norm_app.
Qed.

Lemma consumes_paragraph_break : consumes paragraph_break_at.
Proof.
  intros s out rest H. unfold paragraph_break_at in H.
  destruct (drop_prefix (nl ++ nl) s) as [r|] eqn:E; [|discriminate].
  apply drop_prefix_sound in E. inversion H; subst.
  destruct (span (Ascii.eqb LF) r) as [more rest'] eqn:Es.
  apply span_sound in Es. subst r. cbn [snd].
  exists ((nl ++ nl) ++ more). split; [discriminate|]. norm_app.
Qed.

Lemma list_item_at_sound (s rest : string) :
  list_item_at s = Some rest -> exists item, item <> "" /\ s = item ++ rest.
Proof.
  unfold list_item_at. intros H.
  destruct (drop_prefix "<li>" s) as [r|] eqn:E; [|discriminate].
  apply drop_prefix_sound in E.
  destruct (lazy_until "</li>" r) as [[body r1]|] eqn:El; [|discriminate].
  apply lazy_until_sound in El. subst r s.
  destruct r1 as [|c r2].
  - inversion H; subst. exists ("<li>" ++ body ++ "</li>").
    split; [discriminate|]. norm_app.
  - destruct (Ascii.eqb c LF); inversion H; subst.
    + exists ("<li>" ++ body ++ "</li>" ++ String c ""). split; [discriminate|].
      norm_app.
    + exists ("<li>" ++ body ++ "</li>"). split; [discriminate|].
      norm_app.
Qed.

Lemma list_item_at_shorter (s rest : string) :
  list_item_at s = Some rest -> String.length rest < String.length s.
Proof.
  intros H. apply list_item_at_sound in H. destruct H as (item & Hne & ->).
  rewrite length_append. destruct item; [congruence | simpl; lia].
Qed.

Lemma after_items_fuel (f1 : nat) :
  forall (f2 : nat) (s : string),
    String.length s <= f1 -> String.length s <= f2 ->
    after_items f1 s = after_items f2 s.
Proof.
  induction f1 as [|f1 IH]; intros f2 s H1 H2.
  - destruct s; [|simpl in H1; lia]. now destruct f2.
  - destruct f2 as [|f2].
    + destruct s; [reflexivity | simpl in H2; lia].
    + simpl. destruct (list_item_at s) as [rest|] eqn:E; [|reflexivity].
      apply list_item_at_shorter in E. apply IH; lia.
Qed.

(** The run of list items, free of its fuel. *)
Lemma after_items_eq (s : string) :
  after_items (String.length s) s =
    match list_item_at s with
    | Some rest => after_items (String.length rest) rest
    | None => s
    end.
Proof.
  destruct (String.length s) eqn:L.
  - destruct s; [reflexivity | discriminate].
  - simpl. destruct (list_item_at s) as [rest|] eqn:E; [|reflexivity].
    apply list_item_at_shorter in E. apply after_items_fuel; lia.
Qed.

Lemma after_items_suffix (fuel : nat) :
  forall s, exists run, s = run ++ after_items fuel s.
Proof.
  induction fuel as [|fuel IH]; intros s; simpl.
  - now exists "".
  - destruct (list_item_at s) as [rest|] eqn:E; [|now exists ""].
    apply list_item_at_sound in E. destruct E as (item & _ & ->).
    destruct (IH rest) as (run & Hr). exists (item ++ run).
    now rewrite append_assoc, <- Hr.
Qed.

Lemma take_app (a b : string) : take (String.length a) (a ++ b) = a.
Proof. induction a as [|c a IH]; simpl; [now destruct b | now rewrite IH]. Qed.

(** The list rule wraps exactly the run of items it matched. *)
Lemma list_at_sound (s out rest : string) :
  list_at s = Some (out, rest) ->
  exists run, run <> "" /\ s = run ++ rest /\ out = "<ul>" ++ run ++ "</ul>".
Proof.
  unfold list_at. destruct (list_item_at s) as [r|] eqn:E; [|discriminate].
  intros H. inversion H; subst. clear H.
  destruct (after_items_suffix (String.length s) s) as (run & Hr).
  set (rest := after_items (String.length s) s) in *.
  assert (Hlt : String.length rest < String.length s).
  { unfold rest. rewrite after_items_eq, E.
    apply list_item_at_shorter in E.
    destruct (after_items_suffix (String.length r) r) as (run' & Hr').
    rewrite Hr' in E at 1. rewrite length_append in E. lia. }
  exists run. split; [|split].
  - intros ->. simpl in Hr. rewrite <- Hr in Hlt. lia.
  - exact Hr.
  - rewrite Hr at 1 2. rewrite length_append, Nat.add_sub, take_app. reflexivity.
Qed.

Lemma consumes_list : consumes list_at.
Proof.
  intros s out rest H. apply list_at_sound in H.
  destruct H as (run & Hne & Hs & _). eauto.
Qed.

Lemma split_str_fuel (f1 : nat) :
  forall (f2 : nat) (s : string),
    String.length s <= f1 -> String.length s <= f2 ->
    split_str f1 "__" s = split_str f2 "__" s.
Proof.
  induction f1 as [|f1 IH]; intros f2 s H1 H2.
  - destruct s; [|simpl in H1; lia]. now destruct f2.
  - destruct f2 as [|f2].
    + destruct s; [reflexivity | simpl in H2; lia].
    + simpl. destruct (find_sub "__" s) as [[a b]|] eqn:E; [|reflexivity].
      apply find_sub_length in E. simpl in E. f_equal. apply IH; lia.
Qed.

(** The split on a double underscore, free of its fuel. *)
Lemma split_dunder_eq (s : string) :
  split_dunder s =
    match find_sub "__" s with
    | Some (a, b) => a :: split_dunder b
    | None => [s]
    end.
Proof.
  unfold split_dunder. destruct (String.length s) eqn:L.
  - destruct s; [reflexivity | discriminate].
  - simpl. destruct (find_sub "__" s) as [[a b]|] eqn:E; [|reflexivity].
    apply find_sub_length in E. simpl in E. f_equal. apply split_str_fuel; lia.
Qed.

(** * The examples of the specification, evaluated *)

(** A user prompt, an assistant turn with a text and a tool call, and the
    record that carries the result: two turns, the invocation of the second
    holding the correlated result. *)
Example end_to_end : parse_messages sample_log = Return sample_turns.
Proof. vm_compute. reflexivity. Qed.

(** A result of 6000 characters in the plain-text re-export: 5000
    characters and the note of the full length. *)
Example plain_text_result_cut :
  raw_result_lines (tool_of "Bash" [] (replicate (6 * 1000) "o"))
  = [nl ++ "[Output]"; replicate 5000 "o" ++ nl ++ "... (6000 chars total)"].
Proof. vm_compute. reflexivity. Qed.

(** A command of 200 characters in the summary: 77 characters and an
    ellipsis, 80 in all after the prompt sign. *)
Example summary_command_cut :
  tool_summary (tool_of "Bash" [("command", JStr (replicate 200 "x"))] "")
  = Return ("$ " ++ replicate 77 "x" ++ "...")
  /\ String.length (replicate 77 "x" ++ "...") = 80.
Proof. split; vm_compute; reflexivity. Qed.

(** Headings, a list, a link, a rule and a fenced block in one text. *)
Example md_sample :
  md_to_html ("# Title" ++ nl ++ nl ++ "- one" ++ nl ++ "- two" ++ nl ++ nl
                ++ "see [x](http://y) ok" ++ nl ++ nl ++ "---" ++ nl ++ nl
                ++ "```py" ++ nl ++ "x = 1" ++ nl ++ "```")
  = "<p><h1>Title</h1></p><p><ul><li>one</li>" ++ nl ++ "<li>two</li>" ++ nl
      ++ "</ul>" ++ nl ++ "see <a href=" ++ dq ++ "http://y" ++ dq ++ " target="
      ++ dq ++ "_blank" ++ dq ++ ">x</a> ok</p><hr><p><pre class=" ++ dq
      ++ "code-block" ++ dq ++ "><code>x = 1" ++ nl ++ "</code></pre></p>".
Proof. vm_compute. reflexivity. Qed.

(** * Further properties of turn reconstruction *)

Lemma built_turn_resolved (st : maps) (ds : list json) (built : list turn)
      (t : turn) (e : tool_entry) :
  Forall2 (fun d t => build_turn st d = Return t) ds built ->
  In t built -> In e (tool_uses t) -> resolved st e.
Proof.
  intros HF Ht He. induction HF as [|d t' ds ts Hd _ IH]; [contradiction|].
  destruct Ht as [->|Ht]; [|auto].
  apply build_turn_inv in Hd. destruct Hd as (_ & _ & Hu).
  rewrite Forall_forall in Hu. auto.
Qed.

(** X1. Every reconstructed invocation is resolved against the whole log:
    its text is that of the last result block of its id, its images those
    of the last such block that carries images, and both are empty when the
    log holds no such block. *)
Theorem invocation_resolution
        (all_records : list json) (messages : list turn)
        (t : turn) (e : tool_entry) :
  parse_messages all_records = Return messages ->
  In t messages -> In e (tool_uses t) ->
  result e =
    match last_such (result_for (id e)) (tool_results all_records) with
    | Some b => spec_result_text b
    | None => ""
    end
  /\ result_images e =
    match last_such (fun b => result_for (id e) b && carries_images b)
                    (tool_results all_records) with
    | Some b => spec_result_images b
    | None => []
    end.
Proof.
  unfold parse_messages. intros H Ht He.
  inv_bind H. apply collect_results_leaves in E.
  apply build_turns_filter in H. destruct H as (built & HF & ->).
  simpl in Ht. apply filter_In in Ht. destruct Ht as [Ht _].
  destruct (built_turn_resolved _ _ _ _ _ HF Ht He) as [R I].
  destruct (E (id e)) as [A B]. cbn [fst snd lookup] in A, B.
  rewrite A in R. rewrite B in I. split.
  - now destruct (last_such (result_for (id e)) (tool_results all_records)).
  - now destruct (last_such (fun b => result_for (id e) b && carries_images b)
                            (tool_results all_records)).
Qed.

Lemma invocation_resolution_witness :
  result sample_entry = "a.txt" ++ nl ++ "b.txt"
  /\ result_images sample_entry = [].
Proof.
  exact (invocation_resolution sample_log sample_turns
           {| role := JStr "assistant"; timestamp := JStr "2025-01-01T10:00:00Z";
              texts := ["Running ls."]; tool_uses := [sample_entry];
              images := [] |} sample_entry
           eq_refl (or_intror (or_introl eq_refl)) (or_introl eq_refl)).
Defined.

Lemma collect_record_other (kvs : list (string * json)) (ty : json) (st : maps) :
  assoc "type" kvs = Some ty -> eq_str ty "user" = false ->
  collect_record st (JObj kvs) = Return st.
Proof.
  intros Hty Hu. unfold collect_record. simpl subscript. rewrite Hty; cbn [bind].
  now rewrite Hu.
Qed.

Lemma turn_record_other (kvs : list (string * json)) (ty : json) (st : maps)
      (acc : list turn) :
  assoc "type" kvs = Some ty ->
  eq_str ty "user" = false -> eq_str ty "assistant" = false ->
  turn_record st acc (JObj kvs) = Return acc.
Proof.
  intros Hty Hu Ha. unfold turn_record. simpl subscript. rewrite Hty; cbn [bind].
  now rewrite Hu, Ha.
Qed.

(** X2. A record of a type other than user adds nothing to the correlation
    mapping, whatever blocks it holds; a record of a type other than user
    and assistant leaves the whole reconstruction as if it were absent. *)
Theorem other_records_skipped
        (kvs : list (string * json)) (ty : json) (earlier later : list json) :
  assoc "type" kvs = Some ty -> eq_str ty "user" = false ->
  collect_results (earlier ++ JObj kvs :: later) = collect_results (earlier ++ later)
  /\ (eq_str ty "assistant" = false ->
      parse_messages (earlier ++ JObj kvs :: later)
      = parse_messages (earlier ++ later)).
Proof.
  intros Hty Hu.
  assert (C : collect_results (earlier ++ JObj kvs :: later)
              = collect_results (earlier ++ later)).
  { apply foldM_skip. intros st. now apply collect_record_other with (ty := ty). }
  split; [exact C|]. intros Ha. unfold parse_messages. rewrite C.
  destruct (collect_results (earlier ++ later)) as [st|e]; cbn [bind]; [|reflexivity].
  apply foldM_skip. intros acc. now apply turn_record_other with (ty := ty).
Qed.

Lemma other_records_skipped_witness :
  collect_results (sample_log ++ summary_record :: sample_log)
  = collect_results (sample_log ++ sample_log)
  /\ parse_messages (sample_log ++ summary_record :: sample_log)
     = parse_messages (sample_log ++ sample_log).
Proof.
  destruct (other_records_skipped
              [("type", JStr "summary"); ("summary", JStr "Listing files")]
              (JStr "summary") sample_log sample_log eq_refl eq_refl) as [A B].
  split; [exact A | exact (B eq_refl)].
Defined.

Lemma turn_block_inert (st : maps) (t : turn) (b : json) :
  inert_block b = true -> turn_block st t b = Return t.
Proof.
  unfold inert_block, turn_block.
  destruct b as [| | | | |kvs]; try reflexivity.
  cbn [is_dict negb orb]. rewrite dget_field; cbn [bind].
  intros H. apply negb_true_iff in H.
  apply orb_false_iff in H. destruct H as [H Hi].
  apply orb_false_iff in H. destruct H as [Ht Hu].
  now rewrite Ht, Hu, Hi.
Qed.

Lemma turn_record_inert (st : maps) (acc : list turn) (d : json) :
  inert_record d = true -> turn_record st acc d = Return acc.
Proof.
  unfold inert_record, conversational. intros H.
  apply andb_prop in H. destruct H as [H Hc].
  apply andb_prop in H. destruct H as [Hd Hty].
  destruct d as [| | | | |kvs]; try discriminate.
  unfold turn_record, build_turn. unfold field in Hty at 1 2. simpl subscript.
  destruct (assoc "type" kvs) as [ty|]; [|discriminate].
  cbn [bind]. rewrite Hty. cbn [negb].
  rewrite dget_field; cbn [bind].
  destruct (field (JObj kvs) "message" (JObj [])) as [| | | | |msg]; try discriminate.
  rewrite !dget_field; cbn [bind].
  destruct (field (JObj msg) "content" (JArr [])) as [| | |s|blocks|o];
    try discriminate.
  cbn [is_str iterate bind].
  assert (F : forall t, foldM (turn_block st) t blocks = Return t).
  { rewrite forallb_forall in Hc. clear - Hc.
    induction blocks as [|b blocks IH]; intros t; simpl; [reflexivity|].
    rewrite turn_block_inert by (apply Hc; now left). cbn [bind].
    apply IH. intros x Hx. apply Hc. now right. }
  rewrite F; cbn [bind]. unfold keep. cbn [role texts tool_uses images is_nil negb orb].
  now destruct (eq_str (field (JObj msg) "role" ty) "user"),
               (eq_str (field (JObj msg) "role" ty) "assistant").
Qed.

(** X3. A record whose blocks are all of other kinds than text, tool_use
    and image, such as the user record that carries a tool's result, never
    becomes a turn: it only feeds the correlation mapping. *)
Theorem result_only_record_no_turn (d : json) (earlier later : list json) :
  inert_record d = true ->
  (forall st, build_turns st (earlier ++ d :: later) = build_turns st (earlier ++ later))
  /\ parse_messages (earlier ++ d :: later)
     = (st <- collect_results (earlier ++ d :: later) ;;
        build_turns st (earlier ++ later)).
Proof.
  intros H.
  assert (B : forall st, build_turns st (earlier ++ d :: later)
                         = build_turns st (earlier ++ later)).
  { intros st. apply foldM_skip. intros acc. now apply turn_record_inert. }
  split; [exact B|]. unfold parse_messages.
  destruct (collect_results (earlier ++ d :: later)) as [st|e]; cbn [bind];
    [apply B | reflexivity].
Qed.

Lemma result_only_record_no_turn_witness :
  parse_messages ([] ++ result_record :: sample_log)
  = (st <- collect_results ([] ++ result_record :: sample_log) ;;
     build_turns st ([] ++ sample_log)).
Proof.
  exact (proj2 (result_only_record_no_turn result_record [] sample_log eq_refl)).
Defined.

Lemma lstrip_idem (s : string) : lstrip (lstrip s) = lstrip s.
Proof.
  induction s as [|c s IH]; [reflexivity|]. simpl.
  destruct (is_space c) eqn:E; [exact IH|]. simpl. now rewrite E.
Qed.

Lemma rstrip_idem (s : string) : rstrip (rstrip s) = rstrip s.
Proof.
  induction s as [|c s IH]; [reflexivity|]. simpl.
  destruct (rstrip s) as [|c' r'] eqn:E.
  - destruct (is_space c) eqn:Ec; simpl; [reflexivity | now rewrite Ec].
  - cbn [rstrip] in IH |- *. now rewrite IH.
Qed.

Lemma rstrip_lstrip (s : string) : rstrip s = s -> rstrip (lstrip s) = lstrip s.
Proof.
  induction s as [|c s IH]; [reflexivity|]. intros H.
  cbn [lstrip]. destruct (is_space c) eqn:Ec; [|exact H].
  apply IH. cbn [rstrip] in H. destruct (rstrip s) as [|c' r'].
  - rewrite Ec in H. discriminate.
  - now inversion H.
Qed.

(** Trimming twice is trimming once. *)
Lemma strip_idem (s : string) : strip (strip s) = strip s.
Proof.
  unfold strip. rewrite (rstrip_lstrip (rstrip s)) by apply rstrip_idem.
  apply lstrip_idem.
Qed.

Lemma text_block_visible (r block : json) (new : list string) :
  text_block r block = Return new ->
  Forall (fun s => nonempty (strip s) = true) new.
Proof.
  unfold text_block. intros H.
  inv_bind H. inv_bind H.
  destruct (v0 && eq_str r "user").
  - inv_bind H. destruct (nonempty (strip v1)) eqn:N; inversion H; subst; auto.
    constructor; auto. now rewrite strip_idem.
  - inv_bind H. destruct v; cbn in E1; try discriminate. inversion E1; subst.
    destruct (nonempty (strip s)) eqn:N; inversion H; subst; auto.
Qed.

Lemma turn_block_visible (st : maps) (t t' : turn) (block : json) :
  Forall (fun s => nonempty (strip s) = true) (texts t) ->
  turn_block st t block = Return t' ->
  Forall (fun s => nonempty (strip s) = true) (texts t').
Proof.
  intros Ht. unfold turn_block.
  destruct block as [| | | | |kvs];
    try (intros H; inversion H; subst; assumption).
  rewrite dget_field; cbn [bind].
  destruct (eq_str _ "text").
  { intros H. inv_bind H. inversion H; subst; cbn.
    apply Forall_app; split; auto. eapply text_block_visible; eauto. }
  destruct (eq_str _ "tool_use").
  { intros H. inv_bind H. inversion H; subst; cbn. assumption. }
  destruct (eq_str _ "image").
  { intros H. inv_bind H. inversion H; subst; cbn. assumption. }
  intros H; inversion H; subst; assumption.
Qed.

Lemma build_turn_visible (st : maps) (d : json) (t : turn) :
  build_turn st d = Return t ->
  Forall (fun s => nonempty (strip s) = true) (texts t).
Proof.
  unfold build_turn. intros H.
  inv_bind H. inv_bind H. inv_bind H. inv_bind H. inv_bind H. inv_bind H.
  eapply foldM_invariant
    with (P := fun t => Forall (fun s => nonempty (strip s) = true) (texts t)) in H.
  - exact H.
  - intros a x a' Ha Hx. eapply turn_block_visible; eauto.
  - constructor.
Qed.

(** X4. The output never holds a hollow turn: every turn has the role user
    or assistant, holds a text, a tool invocation or an image (a user turn:
    a text or an image), and every text in it has a character that is not
    white space; and there are at most as many turns as records of type
    user or assistant. *)
Theorem output_turns_invariant (all_records : list json) (messages : list turn) :
  parse_messages all_records = Return messages ->
  List.length messages <= List.length (filter conversational all_records)
  /\ Forall (fun t =>
               (eq_str (role t) "user" || eq_str (role t) "assistant" = true)
               /\ (texts t <> [] \/ tool_uses t <> [] \/ images t <> [])
               /\ (eq_str (role t) "user" = true -> texts t <> [] \/ images t <> [])
               /\ Forall (fun s => nonempty (strip s) = true) (texts t))
            messages.
Proof.
  unfold parse_messages. intros H. inv_bind H.
  apply build_turns_filter in H. destruct H as (built & HF & ->). simpl.
  split.
  - rewrite (Forall2_length HF). apply filter_length_le.
  - apply Forall_forall. intros t Ht. apply filter_In in Ht.
    destruct Ht as [Ht Hk].
    assert (V : Forall (fun s => nonempty (strip s) = true) (texts t)).
    { clear - HF Ht. induction HF as [|d t' ds ts Hd _ IH]; [contradiction|].
      destruct Ht as [->|Ht]; [|auto]. now apply build_turn_visible in Hd. }
    unfold keep in Hk.
    assert (N : forall A (l : list A), negb (is_nil l) = true -> l <> [])
      by (intros A [|x l]; [discriminate | discriminate]).
    destruct (eq_str (role t) "user") eqn:Eu.
    + apply orb_prop in Hk. repeat split; auto.
      * destruct Hk as [Hk|Hk]; apply N in Hk; auto.
      * intros _. destruct Hk as [Hk|Hk]; apply N in Hk; auto.
    + destruct (eq_str (role t) "assistant") eqn:Ea; [|discriminate].
      repeat split; auto; [|discriminate].
      apply orb_prop in Hk. destruct Hk as [Hk|Hk]; [|apply N in Hk; auto].
      apply orb_prop in Hk. destruct Hk as [Hk|Hk]; apply N in Hk; auto.
Qed.

Lemma output_turns_invariant_witness :
  List.length sample_turns <= List.length (filter conversational sample_log)
  /\ Forall (fun t =>
               (eq_str (role t) "user" || eq_str (role t) "assistant" = true)
               /\ (texts t <> [] \/ tool_uses t <> [] \/ images t <> [])
               /\ (eq_str (role t) "user" = true -> texts t <> [] \/ images t <> [])
               /\ Forall (fun s => nonempty (strip s) = true) (texts t))
            sample_turns.
Proof. exact (output_turns_invariant sample_log sample_turns eq_refl). Defined.

(** * Further properties of the tool formatters *)

Lemma field_str (kvs : list (string * json)) (k d : string) :
  string_fields (JObj kvs) = true ->
  exists s, field (JObj kvs) k (JStr d) = JStr s.
Proof.
  unfold string_fields, field. induction kvs as [|[k' v] kvs IH]; simpl.
  - eauto.
  - intros H. apply andb_prop in H. destruct H as [Hv Hr].
    destruct (String.eqb k k'); [|auto].
    destruct v; try discriminate. eauto.
Qed.

Lemma optional_line_returns (kvs : list (string * json)) (k label : string) :
  returns (optional_line (JObj kvs) k label).
Proof.
  unfold optional_line. rewrite dget_field; cbn [bind].
  destruct (truthy _); apply returns_Return.
Qed.

Lemma cut_value_returns (limit keep : nat) (suffix s : string) :
  returns (cut_value limit keep suffix (JStr s)).
Proof. rewrite cut_value_str. apply returns_Return. Qed.

(** Reads a string field: the value of [dget] becomes a [JStr]. *)
Ltac str_field H :=
  rewrite dget_field; cbn [bind];
  match goal with
  | |- context [field (JObj ?kvs) ?k (JStr ?d)] =>
      let s := fresh "s" in
      let E := fresh "E" in
      destruct (field_str kvs k d H) as [s E]; rewrite E; clear E
  end.

Ltac finish_returns :=
  repeat first
    [ apply returns_Return
    | apply cut_value_returns
    | apply optional_line_returns
    | apply returns_bind; [|intros] ].

Lemma tool_summary_returns (tool : tool_entry) :
  is_str (name tool) = true -> string_fields (input tool) = true ->
  returns (tool_summary tool).
Proof.
  destruct tool as [nm inp i r ri]. cbn [name input]. intros Hn Hi.
  destruct nm as [| | |n| |]; try discriminate.
  destruct inp as [| | | | |kvs]; try discriminate.
  unfold tool_summary. cbn [name input].
  repeat match goal with
         | |- returns (if eq_str (JStr n) ?x then _ else _) =>
             destruct (eq_str (JStr n) x)
         end;
    try (str_field Hi; finish_returns; fail).
  - str_field Hi. str_field Hi. cbn [py_slice bind]. apply returns_Return.
  - cbn [py_in bind]. destruct (contains "mcp__" n); apply returns_Return.
Qed.

Lemma tool_full_detail_returns (tool : tool_entry) :
  is_str (name tool) = true -> string_fields (input tool) = true ->
  returns (tool_full_detail tool).
Proof.
  destruct tool as [nm inp i r ri]. cbn [name input]. intros Hn Hi.
  destruct nm as [| | |n| |]; try discriminate.
  destruct inp as [| | | | |kvs]; try discriminate.
  unfold tool_full_detail. cbn [name input].
  apply returns_bind; [|intros; apply returns_Return].
  repeat match goal with
         | |- returns (if ?c then _ else _) => destruct c
         end;
    cbn [items py_in bind];
    repeat (rewrite dget_field; cbn [bind]);
    try (finish_returns; fail).
  - destruct (field_str kvs "prompt" "" Hi) as [s ->]. finish_returns.
  - destruct (contains "mcp__" n); apply returns_Return.
Qed.

Lemma raw_tool_lines_returns (tool : tool_entry) :
  is_str (name tool) = true -> string_fields (input tool) = true ->
  returns (raw_tool_lines tool).
Proof.
  destruct tool as [nm inp i r ri]. cbn [name input]. intros Hn Hi.
  destruct nm as [| | |n| |]; try discriminate.
  destruct inp as [| | | | |kvs]; try discriminate.
  unfold raw_tool_lines. cbn [name input].
  apply returns_bind; [|intros; apply returns_Return].
  repeat match goal with
         | |- returns (if ?c then _ else _) => destruct c
         end;
    cbn [items bind];
    repeat (rewrite dget_field; cbn [bind]);
    finish_returns.
Qed.

Lemma named_with_returns (tool : tool_entry) (kvs : list (string * json))
      (nm k : string) :
  input tool = JObj kvs ->
  exists b, named_with tool nm k = Return b
            /\ (b = true -> exists v, assoc k kvs = Some v).
Proof.
  intros Hi. unfold named_with. rewrite Hi.
  destruct (eq_str (name tool) nm); [|exists false; split; [reflexivity | discriminate]].
  rewrite dget_field; cbn [bind]. eexists. split; [reflexivity|].
  unfold field. destruct (assoc k kvs); [eauto | discriminate].
Qed.

Lemma md_tool_lines_returns (tool : tool_entry) :
  is_str (name tool) = true -> string_fields (input tool) = true ->
  returns (md_tool_lines tool).
Proof.
  intros Hn Hi. unfold md_tool_lines.
  apply returns_bind; [|intros; apply returns_Return].
  destruct (input tool) as [| | | | |kvs] eqn:Einp; try discriminate.
  unfold md_compact_detail. rewrite Einp.
  assert (S : forall k, (exists v, assoc k kvs = Some v) ->
                        returns (subscript (JObj kvs) k)).
  { intros k [v Hv]. simpl. rewrite Hv. apply returns_Return. }
  destruct (eq_str (name tool) "Bash");
    [rewrite dget_field; cbn [bind]; apply returns_Return|].
  destruct (named_with_returns tool kvs "Read" "file_path" Einp) as (b1 & -> & H1).
  cbn [bind]. destruct b1.
  { apply returns_bind; [apply S; auto | intros; apply returns_Return]. }
  destruct (named_with_returns tool kvs "Write" "file_path" Einp) as (b2 & -> & H2).
  cbn [bind]. destruct b2.
  { str_field Hi. rewrite cut_value_str; cbn [bind].
    apply returns_bind; [apply S; auto | intros; apply returns_Return]. }
  destruct (named_with_returns tool kvs "Edit" "file_path" Einp) as (b3 & -> & H3).
  cbn [bind]. destruct b3.
  { str_field Hi. str_field Hi. rewrite !cut_value_str; cbn [bind].
    apply returns_bind; [apply S; auto | intros; apply returns_Return]. }
  destruct (named_with_returns tool kvs "Grep" "pattern" Einp) as (b4 & -> & H4).
  cbn [bind]. destruct b4.
  { apply returns_bind; [apply S; auto | intros].
    rewrite dget_field; cbn [bind]. apply returns_Return. }
  destruct (named_with_returns tool kvs "Glob" "pattern" Einp) as (b5 & -> & H5).
  cbn [bind]. destruct b5.
  { apply returns_bind; [apply S; auto | intros].
    rewrite dget_field; cbn [bind]. apply returns_Return. }
  repeat match goal with
         | |- returns (if ?c then _ else _) => destruct c
         end;
    cbn [items bind];
    repeat (rewrite dget_field; cbn [bind]);
    finish_returns.
Qed.

(** X5. No formatter raises on a tool whose name is a string and whose
    input is a mapping with string values: the summary, the full detail,
    the plain-text lines and the Markdown lines all return. *)
Theorem formatters_return (tool : tool_entry) :
  is_str (name tool) = true -> string_fields (input tool) = true ->
  returns (tool_summary tool) /\ returns (tool_full_detail tool)
  /\ returns (raw_tool_lines tool) /\ returns (md_tool_lines tool).
Proof.
  intros Hn Hi. split; [|split; [|split]].
  - now apply tool_summary_returns.
  - now apply tool_full_detail_returns.
  - now apply raw_tool_lines_returns.
  - now apply md_tool_lines_returns.
Qed.

Lemma formatters_return_witness :
  returns (tool_summary sample_entry) /\ returns (tool_full_detail sample_entry)
  /\ returns (raw_tool_lines sample_entry) /\ returns (md_tool_lines sample_entry).
Proof. exact (formatters_return sample_entry eq_refl eq_refl). Defined.

Lemma take_length (n : nat) (s : string) : String.length (take n s) <= n.
Proof.
  revert s; induction n as [|n IH]; intros s; [reflexivity|].
  destruct s as [|c s]; simpl; [lia|]. specialize (IH s). lia.
Qed.

(** X6. With string fields, the one-line summary is short: at most 82
    characters for a shell command, 70 for a fetched url, 66 for a task
    (its description, or its prompt when it has none). *)
Theorem summary_bounded (kvs : list (string * json)) (res : string) :
  string_fields (JObj kvs) = true ->
  (exists out, tool_summary (tool_of "Bash" kvs res) = Return out
               /\ String.length out <= 82)
  /\ (exists out, tool_summary (tool_of "WebFetch" kvs res) = Return out
                  /\ String.length out <= 70)
  /\ (exists out, tool_summary (tool_of "Task" kvs res) = Return out
                  /\ String.length out <= 66).
Proof.
  intros Hi. unfold tool_summary, tool_of.
  cbn [name input eq_str String.eqb Ascii.eqb Bool.eqb].
  split; [|split].
  - str_field Hi. rewrite cut_value_str; cbn [bind str].
    eexists. split; [reflexivity|].
    destruct (Nat.ltb_spec 80 (String.length s));
      cbn [append String.length]; rewrite ?length_append; cbn [String.length].
    + pose proof (take_length 77 s). lia.
    + lia.
  - str_field Hi. cbn [py_slice bind str]. eexists. split; [reflexivity|].
    cbn [append String.length]. pose proof (take_length 60 s). lia.
  - str_field Hi. str_field Hi. cbn [py_slice bind str].
    eexists. split; [reflexivity|].
    cbn [append String.length]. pose proof (take_length 60 s0). lia.
Qed.

Lemma summary_bounded_witness :
  (exists out, tool_summary (tool_of "Bash" [("command", JStr "ls")] "") = Return out
               /\ String.length out <= 82)
  /\ (exists out, tool_summary (tool_of "WebFetch" [("command", JStr "ls")] "")
                  = Return out /\ String.length out <= 70)
  /\ (exists out, tool_summary (tool_of "Task" [("command", JStr "ls")] "")
                  = Return out /\ String.length out <= 66).
Proof. exact (summary_bounded [("command", JStr "ls")] "" eq_refl). Defined.

Lemma contains_cons_false (p : string) (c : ascii) (s : string) :
  contains p (String c s) = false ->
  drop_prefix p (String c s) = None /\ contains p s = false.
Proof.
  unfold contains. cbn [find_sub].
  destruct (drop_prefix p (String c s)); [discriminate|].
  destruct (find_sub p s) as [[a b]|]; [discriminate | auto].
Qed.

(** The first double underscore after a text that holds none and does not
    end with an underscore is the one that follows it. *)
Lemma find_dunder_after (a b : string) :
  contains "__" a = false -> endswith a "_" = false ->
  find_sub "__" (a ++ "__" ++ b) = Some (a, b).
Proof.
  induction a as [|c a IH]; intros Hc He.
  - exact (find_sub_prefix "__" b).
  - apply contains_cons_false in Hc. destruct Hc as [Hd Hc].
    assert (He' : endswith a "_" = false).
    { cbn [endswith] in He. apply orb_false_iff in He. tauto. }
    change (String c a ++ "__" ++ b) with (String c (a ++ "__" ++ b)).
    cbn [find_sub]. rewrite (IH Hc He').
    assert (drop_prefix "__" (String c (a ++ "__" ++ b)) = None) as ->;
      [|reflexivity].
    cbn [drop_prefix] in Hd |- *.
    destruct (Ascii.eqb_spec "_" c) as [<-|_]; [|reflexivity].
    destruct a as [|d a]; [discriminate He|].
    cbn [append drop_prefix] in Hd |- *.
    destruct (Ascii.eqb "_" d); [discriminate | reflexivity].
Qed.

Lemma split_dunder_none (s : string) :
  contains "__" s = false -> split_dunder s = [s].
Proof.
  intros H. rewrite split_dunder_eq. unfold contains in H.
  now destruct (find_sub "__" s) as [[a b]|].
Qed.

(** X7. A tool named after the convention of the Model Context Protocol,
    [mcp__server__action], is summarised as [MCP server/action], whatever
    its input, when neither part holds a double underscore and the server
    part does not end with an underscore. *)
Theorem mcp_summary_label (tool : tool_entry) (server action : string) :
  name tool = JStr ("mcp__" ++ server ++ "__" ++ action) ->
  contains "__" server = false -> endswith server "_" = false ->
  contains "__" action = false ->
  tool_summary tool = Return ("MCP " ++ server ++ "/" ++ action).
Proof.
  intros Hn Hs He Ha. unfold tool_summary. rewrite Hn.
  cbn [eq_str String.eqb Ascii.eqb Bool.eqb append py_in bind].
  assert (C : contains "mcp__" ("mcp__" ++ server ++ "__" ++ action) = true)
    by (unfold contains; now rewrite find_sub_prefix).
  cbn [append] in C. rewrite C. unfold mcp_summary.
  assert (P : split_dunder ("mcp__" ++ server ++ "__" ++ action)
              = ["mcp"; server; action]).
  { rewrite split_dunder_eq.
    assert (find_sub "__" ("mcp__" ++ server ++ "__" ++ action)
            = Some ("mcp", server ++ "__" ++ action)) as ->.
    { change ("mcp__" ++ server ++ "__" ++ action)
        with ("mcp" ++ "__" ++ server ++ "__" ++ action).
      now apply find_dunder_after. }
    rewrite split_dunder_eq, (find_dunder_after _ _ Hs He).
    now rewrite (split_dunder_none _ Ha). }
  cbn [append] in P. rewrite P.
  assert (D : contains "__" ("mcp__" ++ server ++ "__" ++ action) = true).
  { apply contains_iff. exists "mcp", (server ++ "__" ++ action). reflexivity. }
  cbn [append] in D. rewrite D. reflexivity.
Qed.

Lemma mcp_summary_label_witness :
  tool_summary (tool_of "mcp__claude_ai__create_issue" [] "")
  = Return "MCP claude_ai/create_issue".
Proof.
  exact (mcp_summary_label (tool_of "mcp__claude_ai__create_issue" [] "")
           "claude_ai" "create_issue" eq_refl eq_refl eq_refl eq_refl).
Defined.

(** X8. For a tool whose name is none of the known ones and holds no
    [mcp__], the summary is the name followed by a pair of parentheses; the
    input is not read, so nothing in it can make the summary fail. *)
Theorem unknown_tool_summary (tool : tool_entry) (nm : string) :
  name tool = JStr nm ->
  existsb (String.eqb nm) known_tools = false ->
  contains "mcp__" nm = false ->
  tool_summary tool = Return (nm ++ "()").
Proof.
  intros Hn Hk Hm. unfold tool_summary. rewrite Hn.
  unfold known_tools in Hk. cbn [existsb] in Hk.
  repeat (apply orb_false_iff in Hk; destruct Hk as [? Hk]).
  cbn [eq_str py_in bind str].
  repeat match goal with
         | H : String.eqb nm ?x = false |- _ => rewrite H; clear H
         end.
  now rewrite Hm.
Qed.

Lemma unknown_tool_summary_witness :
  tool_summary {| name := JStr "NotebookEdit"; input := JNull; id := JNull;
                  result := ""; result_images := [] |}
  = Return "NotebookEdit()".
Proof.
  exact (unknown_tool_summary
           {| name := JStr "NotebookEdit"; input := JNull; id := JNull;
              result := ""; result_images := [] |}
           "NotebookEdit" eq_refl eq_refl eq_refl).
Defined.

(** * Names for the export *)


















(** * The plain-text re-export embedded in the page *)

Lemma contains_cons_intro (p : string) (c : ascii) (s : string) :
  drop_prefix p (String c s) = None -> contains p s = false ->
  contains p (String c s) = false.
Proof.
  unfold contains. cbn [find_sub]. intros -> H.
  now destruct (find_sub p s) as [[a b]|].
Qed.

Lemma drop_prefix_cons (x c : ascii) (p s : string) :
  drop_prefix (String x p) (String c s)
  = if Ascii.eqb x c then drop_prefix p s else None.
Proof. reflexivity. Qed.

(** After the substitution, the text starts with a run of characters other
    than the less-than sign only where it did before. *)
Lemma sub_script_prefix (q s : string) :
  all_chars (fun c => negb (Ascii.eqb c "<"%char)) q = true ->
  drop_prefix q (sub (literal_at "</script>" "<\/script>") s) <> None ->
  drop_prefix q s <> None.
Proof.
  revert s; induction q as [|x q IH]; intros s Hq H; [discriminate|].
  simpl in Hq. apply andb_prop in Hq. destruct Hq as [Hx Hq].
  apply negb_true_iff in Hx.
  rewrite (sub_eq _ s (consumes_literal _ _ _)) in H.
  destruct s as [|c s]; [exact H|].
  unfold literal_at in H at 1.
  destruct (drop_prefix "</script>" (String c s)) as [rest|].
  - exfalso. apply H. cbn [append drop_prefix]. now rewrite Hx.
  - cbn [drop_prefix] in H |- *. destruct (Ascii.eqb x c); [|exact H].
    now apply IH.
Qed.

Lemma contains_after_escaped (s : string) :
  contains "</script>" s = false -> contains "</script>" ("<\/script>" ++ s) = false.
Proof.
  unfold contains. simpl. now destruct (find_sub "</script>" s) as [[a b]|].
Qed.

Lemma sub_script_free (n : nat) :
  forall s, String.length s <= n ->
            contains "</script>" (sub (literal_at "</script>" "<\/script>") s) = false.
Proof.
  induction n as [|n IH]; intros s Hn.
  - destruct s; [reflexivity | simpl in Hn; lia].
  - rewrite (sub_eq _ s (consumes_literal _ _ _)).
    destruct s as [|c s]; [reflexivity|].
    unfold literal_at at 1.
    destruct (drop_prefix "</script>" (String c s)) as [rest|] eqn:E.
    + apply contains_after_escaped. apply IH.
      apply drop_prefix_sound in E. apply (f_equal String.length) in E.
      rewrite length_append in E. simpl in E, Hn. lia.
    + apply contains_cons_intro; [|apply IH; simpl in Hn; lia].
      change "</script>" with (String "<" "/script>") in E |- * at 1.
      rewrite drop_prefix_cons in E |- *.
      destruct (Ascii.eqb "<" c); [|reflexivity].
      destruct (drop_prefix "/script>"
                  (sub (literal_at (String "<" "/script>") "<\/script>") s)) eqn:D;
        [|reflexivity].
      exfalso. apply (sub_script_prefix "/script>" s); [reflexivity | | exact E].
      change "</script>" with (String "<" "/script>"). congruence.
Qed.

(** X12. The plain-text re-export embedded in the page never holds the
    end tag of a script element, whatever the conversation says: the text
    cannot close the script that carries it. *)
Theorem embedded_text_no_script_end (raw_text : string) :
  contains "</script>" (raw_text_js raw_text) = false.
Proof. unfold raw_text_js. now apply (sub_script_free (String.length (json_str raw_text))). Qed.

(** * The manifest *)

Lemma insert_desc_perm (x : json * json) (l : list (json * json)) :
  Permutation (insert_desc x l) (x :: l).
Proof.
  induction l as [|y l IH]; simpl; [reflexivity|].
  destruct (String.leb (exported_of y) (exported_of x)); [reflexivity|].
  rewrite IH. apply perm_swap.
Qed.

Lemma sorted_desc_perm (l : list (json * json)) : Permutation (sorted_desc l) l.
Proof.
  induction l as [|x l IH]; simpl; [reflexivity|].
  rewrite insert_desc_perm. now constructor.
Qed.

Lemma insert_desc_sorted (x : json * json) (l : list (json * json)) :
  Sorted (fun a b => String.leb (exported_of b) (exported_of a) = true) l ->
  Sorted (fun a b => String.leb (exported_of b) (exported_of a) = true)
         (insert_desc x l).
Proof.
  induction l as [|y l IH]; intros H; simpl.
  - repeat constructor.
  - destruct (String.leb (exported_of y) (exported_of x)) eqn:E.
    + constructor; [exact H | now constructor].
    + apply Sorted_inv in H. destruct H as [Hl Hy].
      constructor; [now apply IH|].
      destruct l as [|z l]; simpl.
      * constructor. destruct (String.leb_total (exported_of x) (exported_of y));
          congruence.
      * inversion Hy; subst.
        destruct (String.leb (exported_of z) (exported_of x)); constructor;
          [|assumption].
        destruct (String.leb_total (exported_of x) (exported_of y)); congruence.
Qed.

Lemma sorted_desc_sorted (l : list (json * json)) :
  Sorted (fun a b => String.leb (exported_of b) (exported_of a) = true)
         (sorted_desc l).
Proof.
  induction l as [|x l IH]; simpl; [constructor | now apply insert_desc_sorted].
Qed.

Lemma Permutation_filter {A : Type} (p : A -> bool) (l l' : list A) :
  Permutation l l' -> Permutation (filter p l) (filter p l').
Proof.
  induction 1 as [|x l l' _ IH|x y l|l l' l'' _ IH1 _ IH2]; simpl.
  - constructor.
  - destruct (p x); [now constructor | exact IH].
  - destruct (p x), (p y); try reflexivity. apply perm_swap.
  - now transitivity (filter p l').
Qed.

Lemma mapM_dicts {B : Type} (f : json -> py B) (g : json -> B) (l : list json) :
  (forall e, is_dict e = true -> f e = Return (g e)) ->
  forallb is_dict l = true -> mapM f l = Return (map g l).
Proof.
  intros Hf. induction l as [|e l IH]; simpl; [reflexivity|].
  intros H. apply andb_prop in H. destruct H as [He Hl].
  now rewrite (Hf e He), (IH Hl).
Qed.

Lemma sorted_map_snd (l : list (json * json)) :
  Forall (fun ke => fst ke = field (snd ke) "exported" (JStr "")) l ->
  Sorted (fun a b => String.leb (exported_of b) (exported_of a) = true) l ->
  descending (map snd l).
Proof.
  unfold descending. intros HF HS. induction HS as [|x l Hl IH Hx]; simpl.
  - constructor.
  - inversion HF as [|? ? Hkx HFl]; subst. constructor; [now apply IH|].
    destruct Hx as [|y l Hxy]; simpl; constructor.
    inversion HFl as [|? ? Hky _]; subst.
    unfold exported_of in Hxy. now rewrite Hkx, Hky in Hxy.
Qed.

Section ManifestProofs.

Variable py_sort_desc : list (json * json) -> py (list json).
Hypothesis sort_on_strings : sorts_strings py_sort_desc.

(** X13. Updating a well-formed manifest returns a manifest that holds
    the new entry and, of the old entries, exactly those of another path:
    the new entry is the only one of its path; and the manifest is in
    descending order of the export times. *)
Theorem manifest_deduplicated
        (entries : list json)
        (rel_path project_name session_name branch : string)
        (turn_count size : Z) (now : string) :
  wf_manifest entries = true ->
  exists out,
    update_manifest py_sort_desc (JArr entries) rel_path project_name
                    session_name branch turn_count size now = Return out
    /\ Permutation out
         (manifest_entry rel_path project_name session_name branch
                         turn_count size now
            :: filter (fun e => negb (has_path rel_path e)) entries)
    /\ filter (has_path rel_path) out
       = [manifest_entry rel_path project_name session_name branch
                         turn_count size now]
    /\ descending out.
Proof.
  intros Hwf. unfold wf_manifest in Hwf.
  set (new := manifest_entry rel_path project_name session_name branch
                             turn_count size now).
  set (others := filter (fun e => negb (has_path rel_path e)) entries).
  assert (Hd : forallb is_dict entries = true).
  { rewrite forallb_forall in *. intros e He. apply Hwf in He.
    apply andb_prop in He. tauto. }
  unfold update_manifest. cbn [iterate bind].
  rewrite (mapM_dicts _ (fun e => (negb (has_path rel_path e), e)) entries)
    by (auto; intros e He; destruct e; try discriminate;
        now rewrite dget_field).
  cbn [bind]. fold new.
  assert (K : map snd (filter fst (map (fun e => (negb (has_path rel_path e), e))
                                       entries)) = others).
  { unfold others. clear. induction entries as [|e l IH]; simpl; [reflexivity|].
    destruct (negb (has_path rel_path e)); simpl; now rewrite IH. }
  rewrite K.
  assert (Ho : forallb (fun e => is_dict e && is_str (field e "exported" (JStr "")))
                       (others ++ [new]) = true).
  { rewrite forallb_app. apply andb_true_intro. split; [|reflexivity].
    unfold others. rewrite forallb_forall in *. intros e He.
    apply filter_In in He. apply Hwf. tauto. }
  rewrite (mapM_dicts _ (fun e => (field e "exported" (JStr ""), e)) (others ++ [new])).
  2:{ intros e He; destruct e; try discriminate; now rewrite dget_field. }
  2:{ rewrite forallb_forall in *. intros e He. apply Ho in He.
      apply andb_prop in He. tauto. }
  cbn [bind].
  set (keyed := map (fun e => (field e "exported" (JStr ""), e)) (others ++ [new])).
  rewrite sort_on_strings.
  2:{ unfold keyed. rewrite forallb_forall in *. intros ke Hke.
      apply in_map_iff in Hke. destruct Hke as (e & <- & He).
      apply Ho in He. apply andb_prop in He. tauto. }
  exists (map snd (sorted_desc keyed)). split; [reflexivity|].
  assert (P : Permutation (map snd (sorted_desc keyed)) (new :: others)).
  { rewrite (Permutation_map snd (sorted_desc_perm keyed)). unfold keyed.
    rewrite map_map. cbn [snd]. rewrite map_id.
    rewrite Permutation_app_comm. reflexivity. }
  split; [exact P|]. split.
  - apply (Permutation_filter (has_path rel_path)) in P.
    assert (F : filter (has_path rel_path) (new :: others) = [new]).
    { cbn [filter]. assert (has_path rel_path new = true) as ->
          by (unfold new, has_path; cbn; apply String.eqb_refl).
      f_equal. unfold others. clear.
      induction entries as [|e l IH]; simpl; [reflexivity|].
      destruct (has_path rel_path e) eqn:E; simpl; [exact IH|].
      now rewrite E. }
    rewrite F in P. apply Permutation_sym, Permutation_length_1_inv in P.
    exact P.
  - apply sorted_map_snd; [|apply sorted_desc_sorted].
    apply (Permutation_Forall (Permutation_sym (sorted_desc_perm keyed))).
    unfold keyed. apply Forall_forall. intros ke Hke.
    apply in_map_iff in Hke. now destruct Hke as (e & <- & _).
Qed.

End ManifestProofs.

Lemma manifest_deduplicated_witness :
  exists out,
    update_manifest sample_sort (JArr sample_manifest) "proj/a.html" "proj" "a2"
                    "dev" 7 4096 "2025-01-02T09:00:00" = Return out
    /\ Permutation out
         (manifest_entry "proj/a.html" "proj" "a2" "dev" 7 4096 "2025-01-02T09:00:00"
            :: filter (fun e => negb (has_path "proj/a.html" e)) sample_manifest)
    /\ filter (has_path "proj/a.html") out
       = [manifest_entry "proj/a.html" "proj" "a2" "dev" 7 4096 "2025-01-02T09:00:00"]
    /\ descending out.
Proof.
  exact (manifest_deduplicated sample_sort (fun l _ => eq_refl) sample_manifest
           "proj/a.html" "proj" "a2" "dev" 7 4096 "2025-01-02T09:00:00" eq_refl).
Defined.

(** * Further properties of the transducer *)

Lemma split_on_nonempty (x : ascii) (s : string) : split_on x s <> [].
Proof.
  destruct s as [|c s]; simpl; [discriminate|].
  destruct (Ascii.eqb c x); [discriminate|].
  destruct (split_on x s); discriminate.
Qed.

Lemma join_cons (sep x : string) (l : list string) :
  l <> [] -> join sep (x :: l) = x ++ sep ++ join sep l.
Proof. destruct l; [congruence | reflexivity]. Qed.

(** Splitting a text into its lines and joining them again gives the text
    back. *)
Lemma join_split (s : string) : join nl (split_on LF s) = s.
Proof.
  induction s as [|c s IH]; [reflexivity|]. simpl.
  destruct (Ascii.eqb_spec c LF) as [->|Hc].
  - rewrite join_cons by apply split_on_nonempty. now rewrite IH.
  - destruct (split_on LF s) as [|x l] eqn:E; [now apply split_on_nonempty in E|].
    rewrite <- IH. destruct l; reflexivity.
Qed.

Lemma split_on_all_chars (p : ascii -> bool) (x : ascii) (s : string) :
  all_chars p s = true ->
  Forall (fun part => all_chars p part = true) (split_on x s).
Proof.
  induction s as [|c s IH]; simpl; [repeat constructor|].
  intros H. apply andb_prop in H. destruct H as [Hc Hs]. specialize (IH Hs).
  destruct (Ascii.eqb c x); [constructor; [reflexivity | exact IH]|].
  destruct (split_on x s) as [|q qs]; [repeat constructor; simpl; now rewrite Hc|].
  inversion IH; subst. constructor; [|assumption]. simpl. now rewrite Hc.
Qed.

Lemma not_table_line (line : string) :
  all_chars (fun c => negb (Ascii.eqb c "|"%char)) line = true ->
  is_table_line line = false.
Proof.
  intros H. unfold is_table_line. rewrite contains_char_none; [reflexivity|].
  unfold strip. now apply all_chars_lstrip, all_chars_rstrip.
Qed.

Lemma table_lines_plain (lines : list string) :
  Forall (fun line => is_table_line line = false) lines ->
  table_lines false lines = lines.
Proof.
  induction 1 as [|line lines Hl _ IH]; simpl; [reflexivity|].
  now rewrite Hl, IH.
Qed.

(** X14. The table rule leaves every text without a pipe character as it
    is, line breaks included. *)
Theorem tables_without_pipe (text : string) :
  all_chars (fun c => negb (Ascii.eqb c "|"%char)) text = true ->
  tables text = text.
Proof.
  intros H. unfold tables. rewrite table_lines_plain; [apply join_split|].
  apply (split_on_all_chars _ LF) in H.
  eapply Forall_impl; [|exact H]. intros line. apply not_table_line.
Qed.

Lemma tables_without_pipe_witness :
  tables ("first line" ++ nl ++ nl ++ "- an item" ++ nl) =
  "first line" ++ nl ++ nl ++ "- an item" ++ nl.
Proof.
  exact (tables_without_pipe ("first line" ++ nl ++ nl ++ "- an item" ++ nl) eq_refl).
Defined.

Lemma html_escape_app (a b : string) :
  html_escape (a ++ b) = html_escape a ++ html_escape b.
Proof.
  induction a as [|c a IH]; simpl; [reflexivity|]. now rewrite IH, append_assoc.
Qed.

Lemma escape_char_inj (c d : ascii) (x y : string) :
  escape_char c ++ x = escape_char d ++ y -> c = d /\ x = y.
Proof.
  unfold escape_char.
  destruct (Ascii.eqb_spec c "&"); destruct (Ascii.eqb_spec c "<");
    destruct (Ascii.eqb_spec c ">"); destruct (Ascii.eqb_spec c "034");
    destruct (Ascii.eqb_spec c "'"); subst; try discriminate;
    destruct (Ascii.eqb_spec d "&"); destruct (Ascii.eqb_spec d "<");
    destruct (Ascii.eqb_spec d ">"); destruct (Ascii.eqb_spec d "034");
    destruct (Ascii.eqb_spec d "'"); subst; try discriminate;
    cbn [append]; intros H; inversion H; subst; auto; congruence.
Qed.

(** X15. Escaping loses nothing: two texts with the same escaped form are
    the same text; and the escaped form of a concatenation is the
    concatenation of the escaped forms. *)
Theorem html_escape_lossless (a b : string) :
  html_escape (a ++ b) = html_escape a ++ html_escape b
  /\ (html_escape a = html_escape b -> a = b).
Proof.
  split; [apply html_escape_app|].
  revert b; induction a as [|c a IH]; intros b H.
  - destruct b as [|d b]; [reflexivity|]. simpl in H.
    destruct (escape_char_cases d) as [(E & _)|(r & E & _)]; rewrite E in H;
      discriminate.
  - destruct b as [|d b].
    + simpl in H.
      destruct (escape_char_cases c) as [(E & _)|(r & E & _)]; rewrite E in H;
        discriminate.
    + simpl in H. apply escape_char_inj in H. destruct H as [-> H].
      now rewrite (IH b H).
Qed.

Lemma html_escape_lossless_witness :
  html_escape ("a<b" ++ "&c") = html_escape "a<b" ++ html_escape "&c"
  /\ "a<b" = "a<b".
Proof.
  destruct (html_escape_lossless "a<b" "&c") as [A _].
  destruct (html_escape_lossless "a<b" "a<b") as [_ B].
  split; [exact A | exact (B eq_refl)].
Defined.
